(** * SearchTabs: the search controller and the scroll easing curve

    A shallow embedding of [src/components/landingPage/SearchTabs.tsx].

    - [JSString] models ECMAScript strings as sequences of UTF-16 code
      units, with the two platform functions the component calls on them,
      [String.prototype.trim] and [encodeURIComponent].
    - [Json] models the values [response.json()] can resolve to.
    - [Easing] is [easeInOutQuad] over exact rationals.
    - [SearchTabs] is the component: its [useState] cells as a record, its
      event handlers as functions from the state captured by the render
      that created them to the trace of setter calls and requests they
      perform.
    - [View] is what a render shows of a state, [App] the page over time
      (events, requests in flight, settlements in any order), and [Scroll]
      the animation that brings the results into view. *)

From Stdlib Require Import List NArith ZArith String Ascii Bool Lia.
From Stdlib Require Import DecimalString SpecFloat.
From Stdlib Require Import QArith Qminmax Lqa.
From Stdlib Require Import Permutation Sorted.
Import ListNotations.

Close Scope Q_scope.
Set Warnings "-register-all".
Open Scope N_scope.

(* ================================================================== *)
(** ** ECMAScript strings *)

Module JSString.

(** A string is a finite sequence of 16-bit code units. *)
Definition jsstring := list N.

(** A source literal (ASCII only in this component). *)
Definition lit (s : string) : jsstring :=
  map N_of_ascii (list_ascii_of_string s).

Definition eqb (a b : jsstring) : bool :=
  if list_eq_dec N.eq_dec a b then true else false.

(** *** [String.prototype.trim]

    [trim] strips WhiteSpace and LineTerminator code points from both ends
    (ECMA-262, TrimString). *)
Definition is_white_space (c : N) : bool :=
  (c =? 0x0009) || (c =? 0x000A) || (c =? 0x000B) || (c =? 0x000C) ||
  (c =? 0x000D) || (c =? 0x0020) || (c =? 0x00A0) || (c =? 0x1680) ||
  ((0x2000 <=? c) && (c <=? 0x200A)) ||
  (c =? 0x2028) || (c =? 0x2029) || (c =? 0x202F) || (c =? 0x205F) ||
  (c =? 0x3000) || (c =? 0xFEFF).

Fixpoint trimStart (s : jsstring) : jsstring :=
  match s with
  | [] => []
  | c :: tl => if is_white_space c then trimStart tl else s
  end.

Definition trimEnd (s : jsstring) : jsstring := rev (trimStart (rev s)).

Definition trim (s : jsstring) : jsstring := trimEnd (trimStart s).

(** JavaScript truthiness of a string: the empty string is the only falsy
    one. *)
Definition truthy (s : jsstring) : bool :=
  match s with [] => false | _ :: _ => true end.

(** *** [encodeURIComponent]

    ECMA-262 Encode(string, ""): code units in the unreserved set are
    copied; every other code point is written as the percent-escaped
    octets of its UTF-8 encoding; an unpaired surrogate raises URIError. *)
Definition is_ascii_word (c : N) : bool :=
  ((0x41 <=? c) && (c <=? 0x5A)) || ((0x61 <=? c) && (c <=? 0x7A)) ||
  ((0x30 <=? c) && (c <=? 0x39)) || (c =? 0x5F).

(** [-.!~*'()] *)
Definition is_uri_mark (c : N) : bool :=
  (c =? 0x2D) || (c =? 0x2E) || (c =? 0x21) || (c =? 0x7E) ||
  (c =? 0x2A) || (c =? 0x27) || (c =? 0x28) || (c =? 0x29).

Definition is_unescaped (c : N) : bool := is_ascii_word c || is_uri_mark c.

Definition is_leading_surrogate (c : N) : bool :=
  (0xD800 <=? c) && (c <=? 0xDBFF).
Definition is_trailing_surrogate (c : N) : bool :=
  (0xDC00 <=? c) && (c <=? 0xDFFF).

Definition UTF16SurrogatePairToCodePoint (lead trail : N) : N :=
  (lead - 0xD800) * 0x400 + (trail - 0xDC00) + 0x10000.

Definition hex_digit (d : N) : N :=
  if d <? 10 then 0x30 + d else 0x41 + (d - 10).

(** ["%XX"], upper-case hexadecimal. *)
Definition percent_octet (b : N) : jsstring :=
  [0x25; hex_digit (b / 16); hex_digit (b mod 16)].

Definition utf8_octets (cp : N) : list N :=
  if cp <=? 0x7F then [cp]
  else if cp <=? 0x7FF then
    [0xC0 + cp / 0x40; 0x80 + cp mod 0x40]
  else if cp <=? 0xFFFF then
    [0xE0 + cp / 0x1000; 0x80 + (cp / 0x40) mod 0x40; 0x80 + cp mod 0x40]
  else
    [0xF0 + cp / 0x40000; 0x80 + (cp / 0x1000) mod 0x40;
     0x80 + (cp / 0x40) mod 0x40; 0x80 + cp mod 0x40].

Definition escape_code_point (cp : N) : jsstring :=
  flat_map percent_octet (utf8_octets cp).

(** [None] is the URIError exit. *)
Fixpoint encodeURIComponent (s : jsstring) : option jsstring :=
  match s with
  | [] => Some []
  | c :: tl =>
      if is_unescaped c then
        option_map (cons c) (encodeURIComponent tl)
      else if is_trailing_surrogate c then None
      else if is_leading_surrogate c then
        match tl with
        | [] => None
        | c2 :: tl2 =>
            if is_trailing_surrogate c2 then
              option_map
                (app (escape_code_point (UTF16SurrogatePairToCodePoint c c2)))
                (encodeURIComponent tl2)
            else None
        end
      else
        option_map (app (escape_code_point c)) (encodeURIComponent tl)
  end.

(** A string with no unpaired surrogate (ECMA-262 IsStringWellFormedUnicode). *)
Fixpoint isWellFormed (s : jsstring) : bool :=
  match s with
  | [] => true
  | c :: tl =>
      if is_trailing_surrogate c then false
      else if is_leading_surrogate c then
        match tl with
        | [] => false
        | c2 :: tl2 => is_trailing_surrogate c2 && isWellFormed tl2
        end
      else isWellFormed tl
  end.

(** Number::toString for the non-negative integers an HTTP status takes. *)
Definition of_status (n : N) : jsstring :=
  lit (NilZero.string_of_uint (N.to_uint n)).

End JSString.

Import JSString.

(* ================================================================== *)
(** ** JSON values *)

Module Json.

(** What [response.json()] resolves to.  Numbers are IEEE 754 doubles
    ([spec_float] at binary64); objects keep their members in source
    order, a later duplicate key shadowing an earlier one. *)
Inductive JSValue : Type :=
| JNull
| JBool (b : bool)
| JNumber (x : spec_float)
| JString (s : jsstring)
| JArray (items : list JSValue)
| JObject (members : list (jsstring * JSValue)).

Fixpoint lookup_member (k : jsstring) (ms : list (jsstring * JSValue))
  : option JSValue :=
  match ms with
  | [] => None
  | (k', v) :: tl =>
      match lookup_member k tl with
      | Some w => Some w
      | None => if JSString.eqb k k' then Some v else None
      end
  end.

(** The outcome of the member access [v.k].  [JNull] has no properties:
    the access raises TypeError ([None]).  On every other value the result
    is the own member when there is one and [undefined] otherwise (no
    prototype of a parsed value has the key this component reads). *)
Inductive Access :=
| Undefined
| Defined (v : JSValue).

Definition get (v : JSValue) (k : jsstring) : option Access :=
  match v with
  | JNull => None
  | JObject ms =>
      Some match lookup_member k ms with
           | Some w => Defined w
           | None => Undefined
           end
  | _ => Some Undefined
  end.

(** ToBoolean. *)
Definition truthy (v : JSValue) : bool :=
  match v with
  | JNull => false
  | JBool b => b
  | JNumber (S754_zero _) => false
  | JNumber S754_nan => false
  | JNumber _ => true
  | JString s => JSString.truthy s
  | JArray _ => true
  | JObject _ => true
  end.

(** [a || d] where [d] is a string. *)
Definition or_else (a : Access) (d : jsstring) : JSValue :=
  match a with
  | Defined v => if truthy v then v else JString d
  | Undefined => JString d
  end.

End Json.

Import Json.

(* ================================================================== *)
(** ** The scroll easing curve *)

Module Easing.

Local Open Scope Q_scope.

(** [t < 0.5 ? 2 * t * t : 1 - Math.pow(-2 * t + 2, 2) / 2], over exact
    rationals. *)
Definition easeInOutQuad (t : Q) : Q :=
  if Qlt_le_dec t (1 # 2)
  then 2 * t * t
  else 1 - (-2 * t + 2) ^ 2 / 2.

End Easing.

Import Easing.

(* ================================================================== *)
(** ** The component *)

Module SearchTabs.

(** What the component reads from its surroundings: the build flag
    [import.meta.env.PROD], and the message the engine gives the URIError
    that [encodeURIComponent] raises. *)
Record Env := mkEnv {
  PROD : bool;
  uri_error_message : jsstring
}.

(** The eight [useState] cells. *)
Record State := mkState {
  keyword : jsstring;
  contentType : jsstring;
  isLoading : bool;
  hasSearched : bool;
  results : JSValue;
  error : option jsstring;
  showQuestionOptions : bool;
  showKeywordOptions : bool
}.

(** The values passed to [useState] on the first render. *)
Definition initial : State := {|
  keyword := [];
  contentType := lit "all";
  isLoading := false;
  hasSearched := false;
  results := JArray [];
  error := None;
  showQuestionOptions := true;
  showKeywordOptions := true
|}.

(** [fetch(url)] with no init object is a GET. *)
Inductive Method := GET.

Record Request := mkRequest {
  method : Method;
  url : jsstring
}.

(** What a handler does to the world, in program order. *)
Inductive Effect :=
| SetKeyword (v : jsstring)
| SetContentType (v : jsstring)
| SetIsLoading (v : bool)
| SetHasSearched (v : bool)
| SetResults (v : JSValue)
| SetError (v : option jsstring)
| SetShowQuestionOptions (v : bool)
| SetShowKeywordOptions (v : bool)
| Fetch (r : Request)
| ConsoleError (label : jsstring).

(** Every setter call in this component passes a value, never an updater
    function, so a call overwrites its cell. *)
Definition apply (st : State) (e : Effect) : State :=
  match e with
  | SetKeyword v =>
      mkState v (contentType st) (isLoading st) (hasSearched st) (results st)
              (error st) (showQuestionOptions st) (showKeywordOptions st)
  | SetContentType v =>
      mkState (keyword st) v (isLoading st) (hasSearched st) (results st)
              (error st) (showQuestionOptions st) (showKeywordOptions st)
  | SetIsLoading v =>
      mkState (keyword st) (contentType st) v (hasSearched st) (results st)
              (error st) (showQuestionOptions st) (showKeywordOptions st)
  | SetHasSearched v =>
      mkState (keyword st) (contentType st) (isLoading st) v (results st)
              (error st) (showQuestionOptions st) (showKeywordOptions st)
  | SetResults v =>
      mkState (keyword st) (contentType st) (isLoading st) (hasSearched st) v
              (error st) (showQuestionOptions st) (showKeywordOptions st)
  | SetError v =>
      mkState (keyword st) (contentType st) (isLoading st) (hasSearched st)
              (results st) v (showQuestionOptions st) (showKeywordOptions st)
  | SetShowQuestionOptions v =>
      mkState (keyword st) (contentType st) (isLoading st) (hasSearched st)
              (results st) (error st) v (showKeywordOptions st)
  | SetShowKeywordOptions v =>
      mkState (keyword st) (contentType st) (isLoading st) (hasSearched st)
              (results st) (error st) (showQuestionOptions st) v
  | Fetch _ => st
  | ConsoleError _ => st
  end.

Definition run (st : State) (es : list Effect) : State :=
  fold_left apply es st.

(** The outbound requests of a trace. *)
Fixpoint requests (es : list Effect) : list Request :=
  match es with
  | [] => []
  | Fetch r :: tl => r :: requests tl
  | _ :: tl => requests tl
  end.

(** The effects performed before the first request leaves, and those
    performed after it: the request is the only point where [handleSearch]
    is suspended, so the first list runs in the event that called the
    handler and the second when the transport settles. *)
Fixpoint before_request (es : list Effect) : list Effect :=
  match es with
  | [] => []
  | Fetch _ :: _ => []
  | e :: tl => e :: before_request tl
  end.

Fixpoint after_request (es : list Effect) : list Effect :=
  match es with
  | [] => []
  | Fetch _ :: tl => tl
  | _ :: tl => after_request tl
  end.

(** *** The transport *)

(** What the component observes of a [Response]: [json] is the outcome of
    [response.json()], [None] when the body is not valid JSON and the
    promise rejects. *)
Record Response := mkResponse {
  status : N;
  statusText : jsstring;
  json : option JSValue
}.

(** [response.ok]: the status is in the range 200-299. *)
Definition ok (r : Response) : bool :=
  (200 <=? status r) && (status r <=? 299).

(** A value caught by the outer [catch]: an [Error] instance with its
    [message], or anything else. *)
Inductive Thrown :=
| ErrorObj (message : jsstring)
| NonError.

(** How the promise returned by [fetch] settles. *)
Inductive FetchOutcome :=
| Resolved (r : Response)
| Rejected (t : Thrown).

(** What can be raised inside the two inner [try] blocks: the rejection of
    [response.json()], the TypeError of a member access on [null], and
    [throw new Error(arg)]. *)
Inductive Raised :=
| JsonSyntaxError
| NullAccess
| NewError (arg : JSValue).

(** *** Effects and exceptions *)

Inductive Completion (E A : Type) :=
| Normal (a : A)
| Throw (e : E).
Arguments Normal {E A} a.
Arguments Throw {E A} e.

(** A computation: the effects it performed and how it completed. *)
Definition M (E A : Type) : Type := (list Effect * Completion E A)%type.

Definition ret {E A} (a : A) : M E A := ([], Normal a).

Definition throw {E A} (e : E) : M E A := ([], Throw e).

Definition bind {E A B} (m : M E A) (k : A -> M E B) : M E B :=
  match m with
  | (es, Normal a) => let (es', c) := k a in (es ++ es', c)
  | (es, Throw e) => (es, Throw e)
  end.

Definition emit {E} (e : Effect) : M E unit := ([e], Normal tt).

(** [try { body } catch (e) { handler e }] *)
Definition try_catch {E E' A} (body : M E A) (handler : E -> M E' A)
  : M E' A :=
  match body with
  | (es, Normal a) => (es, Normal a)
  | (es, Throw e) => let (es', c) := handler e in (es ++ es', c)
  end.

(** [try { body } finally { fin }] *)
Definition try_finally {E A} (body : M E A) (fin : M E unit) : M E A :=
  match body, fin with
  | (es, c), (es', Normal _) => (es ++ es', c)
  | (es, _), (es', Throw e) => (es ++ es', Throw e)
  end.

(** A call of an async function whose promise is dropped: its effects
    happen, its rejection reaches nobody. *)
Definition spawn {E E'} (m : M E unit) : M E' unit := (fst m, Normal tt).

Definition trace {E A} (m : M E A) : list Effect := fst m.

Declare Scope js_scope.
Delimit Scope js_scope with js.
Notation "x <- m ;; k" := (bind m (fun x => k))
  (at level 61, m at next level, right associativity) : js_scope.
Notation "m ;; k" := (bind m (fun _ => k))
  (at level 61, right associativity) : js_scope.
Local Open Scope js_scope.

Definition setKeyword {E} v : M E unit := emit (SetKeyword v).
Definition setContentType {E} v : M E unit := emit (SetContentType v).
Definition setIsLoading {E} v : M E unit := emit (SetIsLoading v).
Definition setHasSearched {E} v : M E unit := emit (SetHasSearched v).
Definition setResults {E} v : M E unit := emit (SetResults v).
Definition setError {E} v : M E unit := emit (SetError v).
Definition setShowQuestionOptions {E} v : M E unit :=
  emit (SetShowQuestionOptions v).
Definition setShowKeywordOptions {E} v : M E unit :=
  emit (SetShowKeywordOptions v).
Definition console_error {E} (label : string) : M E unit :=
  emit (ConsoleError (lit label)).

(** [await fetch(u)] against a transport that settles as [o]. *)
Definition fetch (o : FetchOutcome) (u : jsstring) : M Thrown Response :=
  emit (Fetch (mkRequest GET u)) ;;
  match o with
  | Resolved r => ret r
  | Rejected t => throw t
  end.

(** [await response.json()] *)
Definition response_json (r : Response) : M Raised JSValue :=
  match json r with
  | Some v => ret v
  | None => throw JsonSyntaxError
  end.

(** [v.k] *)
Definition member (v : JSValue) (k : string) : M Raised Access :=
  match get v (lit k) with
  | Some a => ret a
  | None => throw NullAccess
  end.

(** [encodeURIComponent(s)] *)
Definition encode (env : Env) (s : jsstring) : M Thrown jsstring :=
  match encodeURIComponent s with
  | Some q => ret q
  | None => throw (ErrorObj (uri_error_message env))
  end.

(** *** The handlers

    A handler is a closure created by one render: the state it reads is the
    state of that render ([st]), whatever setters have been called since. *)

Definition baseUrl (env : Env) : jsstring :=
  if PROD env then lit "https://lzindex-server.onrender.com" else lit "".

Definition search_url (env : Env) (q ty : jsstring) : jsstring :=
  baseUrl env ++ lit "/api/search?q=" ++ q ++ lit "&type=" ++ ty.

(** [`Error: ${response.status} ${response.statusText}`] *)
Definition status_line (r : Response) : jsstring :=
  lit "Error: " ++ of_status (status r) ++ lit " " ++ statusText r.

Definition unavailable_message (r : Response) : jsstring :=
  status_line r ++ lit ". The API endpoint may not be available.".

Definition invalid_response_message : jsstring :=
  lit "The API returned an invalid response. Please check server configuration.".

Definition unknown_error_message : jsstring :=
  lit "An unknown error occurred".

(** [err instanceof Error ? err.message : "An unknown error occurred"] *)
Definition error_text (err : Thrown) : jsstring :=
  match err with
  | ErrorObj m => m
  | NonError => unknown_error_message
  end.

(** The [try] block under [if (!response.ok)]:
    [const errorData = await response.json();
     throw new Error(errorData.error || `Error: ...`);] *)
Definition throw_server_error (response : Response) : M Raised unit :=
  errorData <- response_json response ;;
  e <- member errorData "error" ;;
  throw (NewError (or_else e (status_line response))).

(** The body of [if (!response.ok) { try { ... } catch (jsonError) { ... } }]. *)
Definition reject_not_ok (response : Response) : M Thrown unit :=
  try_catch
    (throw_server_error response)
    (fun jsonError =>
       throw (ErrorObj (unavailable_message response))).

(** [try { data = await response.json() } catch (jsonError) { ... }] *)
Definition parse_body (response : Response) : M Thrown JSValue :=
  try_catch
    (response_json response)
    (fun jsonError =>
       console_error "Failed to parse JSON response:" ;;
       throw (ErrorObj invalid_response_message)).

Definition handleSearch (env : Env) (o : FetchOutcome) (st : State)
  : M Thrown unit :=
  if negb (JSString.truthy (trim (keyword st))) then ret tt
  else
    setIsLoading true ;;
    setError None ;;
    setHasSearched true ;;
    setShowQuestionOptions false ;;
    setShowKeywordOptions false ;;
    try_finally
      (try_catch
         (q <- encode env (keyword st) ;;
          response <- fetch o (search_url env q (contentType st)) ;;
          (if negb (ok response) then reject_not_ok response else ret tt) ;;
          data <- parse_body response ;;
          setResults data)
         (fun err =>
            console_error "Search error:" ;;
            setError (Some (error_text err)) ;;
            setResults (JArray [])))
      (setIsLoading false).

Definition handleKeywordClick (env : Env) (o : FetchOutcome) (st : State)
    (selectedKeyword : jsstring) : M Thrown unit :=
  setKeyword selectedKeyword ;;
  spawn (handleSearch env o st).

Definition handleQuestionClick (env : Env) (o : FetchOutcome) (st : State)
    (question : jsstring) : M Thrown unit :=
  setKeyword question ;;
  spawn (handleSearch env o st).

Definition handleKeyDown (env : Env) (o : FetchOutcome) (st : State)
    (key : jsstring) : M Thrown unit :=
  if JSString.eqb key (lit "Enter") then spawn (handleSearch env o st)
  else ret tt.

Definition toggleQuestionOptions (st : State) : M Thrown unit :=
  setShowQuestionOptions (negb (showQuestionOptions st)).

Definition toggleKeywordOptions (st : State) : M Thrown unit :=
  setShowKeywordOptions (negb (showKeywordOptions st)).

Definition resetSearch : M Thrown unit :=
  setHasSearched false ;;
  setShowQuestionOptions true ;;
  setShowKeywordOptions true ;;
  setKeyword (lit "") ;;
  setResults (JArray []) ;;
  setError None.

(** [onChange={(e) => setKeyword(e.target.value)}] *)
Definition onChange (value : jsstring) : M Thrown unit := setKeyword value.

(** [onValueChange={(value) => setContentType(value)}] *)
Definition onValueChange (value : jsstring) : M Thrown unit :=
  setContentType value.

(** One event: the handler of the current render runs against the state
    that render captured, and its setter calls are applied in order. *)
Definition dispatch (st : State) (handler : State -> M Thrown unit) : State :=
  run st (trace (handler st)).

(** *** The suggestion chips *)

Fixpoint insert_by_length (x : jsstring) (l : list jsstring) : list jsstring :=
  match l with
  | [] => [x]
  | y :: tl =>
      if (List.length y <=? List.length x)%nat then y :: insert_by_length x tl
      else x :: l
  end.

(** [.sort((a, b) => a.length - b.length)]: ascending by length, equal
    lengths in their original order. *)
Definition sort_by_length (l : list jsstring) : list jsstring :=
  fold_left (fun acc x => insert_by_length x acc) l [].

Definition keywordOptions : list jsstring :=
  sort_by_length
    (map lit ["DVN"; "Oracle"; "education"; "research"; "innovation"; "data";
              "analysis"]%string).

Definition questionOptions : list jsstring :=
  sort_by_length
    (map lit ["What is LayerZero??";
              "How is LayerZero different from bridges?";
              "What are LayerZero endpoints?";
              "Which chains support LayerZero?";
              "How does LayerZero stay secure?"]%string).

(** The two ways of searching for a chip's label [s]: selecting the chip,
    and typing [s] into the input and pressing Enter in the render that
    follows. *)
Definition select_keyword_chip env o (st : State) (s : jsstring) : State :=
  dispatch st (fun captured => handleKeywordClick env o captured s).

Definition select_question_chip env o (st : State) (s : jsstring) : State :=
  dispatch st (fun captured => handleQuestionClick env o captured s).

Definition type_then_enter env o (st : State) (s : jsstring) : State :=
  let typed := dispatch st (fun _ => onChange s) in
  dispatch typed (fun captured => handleKeyDown env o captured (lit "Enter")).

End SearchTabs.

Import SearchTabs.
Local Open Scope js_scope.

(* ================================================================== *)
(** ** What a render shows *)

Module View.

(** [disabled={isLoading}] on both search buttons. *)
Definition search_button_disabled (st : State) : bool := isLoading st.

(** [{(!hasSearched || showQuestionOptions) && ( ... )}]: the block holding
    the clickable header and, under it, the chips. *)
Definition question_panel_rendered (st : State) : bool :=
  negb (hasSearched st) || showQuestionOptions st.

(** [{showQuestionOptions && ( ... )}] inside that block. *)
Definition question_chips_rendered (st : State) : bool :=
  question_panel_rendered st && showQuestionOptions st.

Definition keyword_panel_rendered (st : State) : bool :=
  negb (hasSearched st) || showKeywordOptions st.

Definition keyword_chips_rendered (st : State) : bool :=
  keyword_panel_rendered st && showKeywordOptions st.

(** [{hasSearched && (<div ref={resultsRef}> ... )}] *)
Definition results_rendered (st : State) : bool := hasSearched st.

(** The guard of the scroll effect,
    [hasSearched && !isLoading && resultsRef.current]: the ref is attached
    exactly when the results block is rendered. *)
Definition scroll_effect_runs (st : State) : bool :=
  hasSearched st && negb (isLoading st) && results_rendered st.

(** The [value]s of the five [SelectItem]s. *)
Definition contentTypes : list jsstring :=
  map lit ["all"; "news"; "research"; "reports"; "articles"]%string.

End View.

Import View.

(* ================================================================== *)
(** ** The component in use *)

Module App.

(** What the user can do to a render.  The two inputs share their
    handlers, and so do the two search buttons and the two tab triggers. *)
Inductive Event :=
| Typing (value : jsstring)
| InputKeyDown (key : jsstring)
| ClickSearch
| ClickKeywordChip (label : jsstring)
| KeyDownKeywordChip (key label : jsstring)
| ClickQuestionChip (label : jsstring)
| KeyDownQuestionChip (key label : jsstring)
| ClickQuestionHeader
| ClickKeywordHeader
| ClickTab
| SelectContentType (value : jsstring).

(** [e.key === "Enter" || e.key === " "] *)
Definition activates (key : jsstring) : bool :=
  JSString.eqb key (lit "Enter") || JSString.eqb key (lit " ").

(** The handler the render with state [st] attached to the event, run
    against a transport that would settle as [o]. *)
Definition handler (env : Env) (o : FetchOutcome) (e : Event) (st : State)
  : M Thrown unit :=
  match e with
  | Typing value => onChange value
  | InputKeyDown key => handleKeyDown env o st key
  | ClickSearch => spawn (handleSearch env o st)
  | ClickKeywordChip label => handleKeywordClick env o st label
  | KeyDownKeywordChip key label =>
      if activates key then handleKeywordClick env o st label else ret tt
  | ClickQuestionChip label => handleQuestionClick env o st label
  | KeyDownQuestionChip key label =>
      if activates key then handleQuestionClick env o st label else ret tt
  | ClickQuestionHeader => toggleQuestionOptions st
  | ClickKeywordHeader => toggleKeywordOptions st
  | ClickTab => resetSearch
  | SelectContentType value => onValueChange value
  end.

(** Whether the render with state [st] offers the event: the element is
    drawn and not disabled.  (Which tab is open is not looked at, so this
    allows at least what the page allows.) *)
Definition enabled (e : Event) (st : State) : bool :=
  match e with
  | Typing _ => true
  | InputKeyDown _ => true
  | ClickSearch => negb (search_button_disabled st)
  | ClickKeywordChip label | KeyDownKeywordChip _ label =>
      keyword_chips_rendered st && existsb (JSString.eqb label) keywordOptions
  | ClickQuestionChip label | KeyDownQuestionChip _ label =>
      question_chips_rendered st
      && existsb (JSString.eqb label) questionOptions
  | ClickQuestionHeader => question_panel_rendered st
  | ClickKeywordHeader => keyword_panel_rendered st
  | ClickTab => true
  | SelectContentType value => existsb (JSString.eqb value) contentTypes
  end.

(** The page between two events: the committed state, and for each request
    that has not settled yet what its handler will do when it does. *)
Record World := mkWorld {
  ui : State;
  inflight : list (list Effect)
}.

Definition start : World := mkWorld initial [].

(** An event runs its handler up to the point where it waits for the
    transport; the rest of the handler is parked. *)
Definition fire (env : Env) (o : FetchOutcome) (e : Event) (w : World)
  : World :=
  let t := trace (handler env o e (ui w)) in
  mkWorld
    (run (ui w) (before_request t))
    (match requests t with
     | [] => inflight w
     | _ :: _ => inflight w ++ [after_request t]
     end).

Fixpoint remove_nth {A} (i : nat) (l : list A) : list A :=
  match l, i with
  | [], _ => []
  | _ :: tl, O => tl
  | x :: tl, S j => x :: remove_nth j tl
  end.

(** The [i]-th parked handler resumes; requests settle in any order. *)
Definition settle (i : nat) (w : World) : World :=
  match nth_error (inflight w) i with
  | Some k => mkWorld (run (ui w) k) (remove_nth i (inflight w))
  | None => w
  end.

Inductive reachable (env : Env) : World -> Prop :=
| reach_start : reachable env start
| reach_fire w o e :
    reachable env w -> enabled e (ui w) = true ->
    reachable env (fire env o e w)
| reach_settle w i :
    reachable env w -> reachable env (settle i w).

(** Use in which the user waits for a search to settle before doing
    anything else that searches. *)
Definition searches (e : Event) : bool :=
  match e with
  | InputKeyDown _ | ClickSearch
  | ClickKeywordChip _ | KeyDownKeywordChip _ _
  | ClickQuestionChip _ | KeyDownQuestionChip _ _ => true
  | _ => false
  end.

Inductive reachable_in_turn (env : Env) : World -> Prop :=
| turn_start : reachable_in_turn env start
| turn_fire w o e :
    reachable_in_turn env w -> enabled e (ui w) = true ->
    (searches e = true -> inflight w = []) ->
    reachable_in_turn env (fire env o e w)
| turn_settle w i :
    reachable_in_turn env w -> reachable_in_turn env (settle i w).

End App.

Import App.

(* ================================================================== *)
(** ** The scroll animation *)

Module Scroll.

Local Open Scope Q_scope.

(** [const duration = 500; // ms] *)
Definition duration : Q := 500.

(** [!start] for [let start: number | null]: [null] and [0] are falsy. *)
Definition not_started (start : option Q) : bool :=
  match start with
  | None => true
  | Some s => Qeq_bool s 0
  end.

(** What one call of [step] leaves behind: the value of [start], the [top]
    passed to [window.scrollTo], and whether another frame was requested. *)
Record Frame := mkFrame {
  started : Q;
  top : Q;
  again : bool
}.

Definition step (startPosition distance : Q) (start : option Q)
    (timestamp : Q) : Frame :=
  let start :=
    match start with
    | Some s => if not_started start then timestamp else s
    | None => timestamp
    end in
  let elapsed := timestamp - start in
  let progress := Qmin (elapsed / duration) 1 in
  mkFrame start
    (startPosition + distance * easeInOutQuad progress)
    (if Qlt_le_dec elapsed duration then true else false).



End Scroll.

Import Scroll.

(* ================================================================== *)
(** ** Scenarios used below *)

Module Scenario.

Definition dev : Env := mkEnv false (lit "URI malformed").

(** The render in which the user has typed [text] and nothing else has
    happened. *)
Definition typed (text : string) : State :=
  dispatch initial (fun _ => onChange (lit text)).

(** A 500 whose body is [{"error":"db down"}]. *)
Definition db_down : Response :=
  mkResponse 500 (lit "Internal Server Error")
    (Some (JObject [(lit "error", JString (lit "db down"))])).

(** A 200 whose body is [[{"id":1}]]. *)
Definition one_hit : Response :=
  mkResponse 200 (lit "OK")
    (Some (JArray
       [JObject [(lit "id", JNumber (S754_finite false 4503599627370496 (-52)))]])).

(** A 200 whose body is [not json]. *)
Definition not_json : Response := mkResponse 200 (lit "OK") None.

(** A render that still shows the hit of an earlier search while the user
    has typed a new query. *)
Definition showing_results : State :=
  dispatch
    (dispatch (typed "DVN") (handleSearch dev (Resolved one_hit)))
    (fun _ => onChange (lit "Oracle")).

(** The user has picked News in the content-type select. *)
Definition news_selected : State :=
  dispatch initial (fun _ => onValueChange (lit "news")).

(** A lone leading surrogate, as left by cutting an emoji in half. *)
Definition half_emoji : State :=
  dispatch initial (fun _ => onChange [0xD83D]).

End Scenario.

(** Worlds the page goes through when the user types "DVN" and presses
    Enter against a server that answers with one hit. *)
Module Journey.

Definition enter : Event := InputKeyDown (lit "Enter").

Definition typed : World :=
  fire Scenario.dev (Resolved Scenario.one_hit) (Typing (lit "DVN")) start.

Definition waiting : World :=
  fire Scenario.dev (Resolved Scenario.one_hit) enter typed.

Definition answered : World := settle 0 waiting.

(** The same search against a server that answers 500. *)
Definition refused : World :=
  settle 0 (fire Scenario.dev (Resolved Scenario.db_down) enter typed).

End Journey.

(* ================================================================== *)
(** ** Facts about the platform functions *)

Lemma trimStart_blank (s : jsstring) :
  forallb is_white_space s = true -> trimStart s = [].
Proof.
  induction s as [|c tl IH]; simpl; [reflexivity|].
  intros H. apply andb_true_iff in H as [Hc Htl].
  rewrite Hc. now apply IH.
Qed.

Lemma trim_blank (s : jsstring) :
  forallb is_white_space s = true -> trim s = [].
Proof.
  intros H. unfold trim. now rewrite (trimStart_blank s H).
Qed.

(** [trimStart] only ever removes white space. *)
Lemma trimStart_empty_blank (s : jsstring) :
  trimStart s = [] -> forallb is_white_space s = true.
Proof.
  induction s as [|c tl IH]; simpl; [reflexivity|].
  destruct (is_white_space c); [exact IH | discriminate].
Qed.

Lemma trim_empty_blank (s : jsstring) :
  trim s = [] -> forallb is_white_space s = true.
Proof.
  unfold trim, trimEnd. intros H.
  apply (f_equal (@rev N)) in H. rewrite rev_involutive in H. simpl in H.
  apply trimStart_empty_blank in H.
  assert (Hs : forallb is_white_space (trimStart s) = true).
  { rewrite forallb_forall in *. intros x Hx. apply H. now apply -> in_rev. }
  clear H. induction s as [|c tl IH]; simpl in *; [reflexivity|].
  destruct (is_white_space c) eqn:Hc; simpl.
  - now apply IH.
  - simpl in Hs. now rewrite Hc in Hs.
Qed.

(** Unreserved characters are ASCII, so never half of a surrogate pair. *)
Lemma unescaped_is_ascii (c : N) : is_unescaped c = true -> c <= 0x7E.
Proof.
  unfold is_unescaped, is_ascii_word, is_uri_mark.
  repeat rewrite ?orb_true_iff, ?andb_true_iff, ?N.eqb_eq, ?N.leb_le.
  lia.
Qed.

Lemma unescaped_not_surrogate (c : N) :
  is_unescaped c = true ->
  is_leading_surrogate c = false /\ is_trailing_surrogate c = false.
Proof.
  intros H. apply unescaped_is_ascii in H.
  unfold is_leading_surrogate, is_trailing_surrogate.
  rewrite !andb_false_iff, !N.leb_gt. lia.
Qed.

(** The escape loop fails exactly on the strings with an unpaired
    surrogate. *)
Lemma encodeURIComponent_defined_upto (n : nat) :
  forall s, (List.length s <= n)%nat ->
    isWellFormed s = true -> exists q, encodeURIComponent s = Some q.
Proof.
  induction n as [|n IH]; intros s Hlen Hwf.
  - destruct s; [now exists [] | simpl in Hlen; lia].
  - destruct s as [|c tl]; [now exists []|].
    simpl in Hlen, Hwf |- *.
    destruct (is_unescaped c) eqn:Hu.
    + destruct (unescaped_not_surrogate c Hu) as [Hl Ht].
      rewrite Ht, Hl in Hwf.
      destruct (IH tl ltac:(lia) Hwf) as [q Hq]. rewrite Hq. now eexists.
    + destruct (is_trailing_surrogate c); [discriminate|].
      destruct (is_leading_surrogate c).
      * destruct tl as [|c2 tl2]; [discriminate|].
        apply andb_true_iff in Hwf as [Hc2 Hwf]. rewrite Hc2.
        simpl in Hlen.
        destruct (IH tl2 ltac:(lia) Hwf) as [q Hq]. rewrite Hq. now eexists.
      * destruct (IH tl ltac:(lia) Hwf) as [q Hq]. rewrite Hq. now eexists.
Qed.

Lemma encodeURIComponent_defined (s : jsstring) :
  isWellFormed s = true -> exists q, encodeURIComponent s = Some q.
Proof. apply (encodeURIComponent_defined_upto (List.length s)); lia. Qed.

Lemma encodeURIComponent_fails_upto (n : nat) :
  forall s, (List.length s <= n)%nat ->
    isWellFormed s = false -> encodeURIComponent s = None.
Proof.
  induction n as [|n IH]; intros s Hlen Hwf.
  - destruct s; [discriminate | simpl in Hlen; lia].
  - destruct s as [|c tl]; [discriminate|].
    simpl in Hlen, Hwf |- *.
    destruct (is_unescaped c) eqn:Hu.
    + destruct (unescaped_not_surrogate c Hu) as [Hl Ht].
      rewrite Ht, Hl in Hwf.
      now rewrite (IH tl ltac:(lia) Hwf).
    + destruct (is_trailing_surrogate c); [reflexivity|].
      destruct (is_leading_surrogate c).
      * destruct tl as [|c2 tl2]; [reflexivity|].
        destruct (is_trailing_surrogate c2); [|reflexivity].
        simpl in Hwf, Hlen. now rewrite (IH tl2 ltac:(lia) Hwf).
      * now rewrite (IH tl ltac:(lia) Hwf).
Qed.

Lemma encodeURIComponent_fails (s : jsstring) :
  isWellFormed s = false -> encodeURIComponent s = None.
Proof. apply (encodeURIComponent_fails_upto (List.length s)); lia. Qed.

Lemma truthy_nonempty (s : jsstring) : s <> [] -> JSString.truthy s = true.
Proof. destruct s; [congruence | reflexivity]. Qed.

(** *** The platform functions on the component's own strings *)

Example trim_strips_both_ends : trim (lit "  data 	") = lit "data".
Proof. reflexivity. Qed.

Example trim_keeps_inner_space :
  trim (lit " What is LayerZero?? ") = lit "What is LayerZero??".
Proof. reflexivity. Qed.

Example encode_question :
  encodeURIComponent (lit "What is LayerZero??")
  = Some (lit "What%20is%20LayerZero%3F%3F").
Proof. reflexivity. Qed.

(** U+00E9, U+20AC and U+1F600: two, three and four octets. *)
Example encode_beyond_ascii :
  encodeURIComponent [0xE9; 0x20AC; 0xD83D; 0xDE00]
  = Some (lit "%C3%A9%E2%82%AC%F0%9F%98%80").
Proof. reflexivity. Qed.

Example encode_lone_surrogate : encodeURIComponent [0xD83D] = None.
Proof. reflexivity. Qed.

Example keywordOptions_sorted :
  keywordOptions
  = map lit ["DVN"; "data"; "Oracle"; "research"; "analysis"; "education";
             "innovation"]%string.
Proof. reflexivity. Qed.

(* ================================================================== *)
(** ** Facts about [handleSearch] *)

(** Whatever the body of a non-2xx response is, the inner [try] block ends
    in a throw, and the [catch] that follows it replaces whatever was
    thrown. *)
Lemma reject_not_ok_throws (r : Response) :
  reject_not_ok r = throw (ErrorObj (unavailable_message r)).
Proof.
  unfold reject_not_ok, throw_server_error, response_json, member.
  destruct (json r) as [v|]; [|reflexivity].
  destruct v; reflexivity.
Qed.

Lemma handleSearch_blank env o st :
  JSString.truthy (trim (keyword st)) = false ->
  handleSearch env o st = ret tt.
Proof. intros H. unfold handleSearch. now rewrite H. Qed.

(** The trace of a search whose request leaves. *)
Lemma handleSearch_trace env o st q :
  JSString.truthy (trim (keyword st)) = true ->
  encodeURIComponent (keyword st) = Some q ->
  trace (handleSearch env o st) =
    [SetIsLoading true; SetError None; SetHasSearched true;
     SetShowQuestionOptions false; SetShowKeywordOptions false;
     Fetch (mkRequest GET (search_url env q (contentType st)))] ++
    match o with
    | Rejected t =>
        [ConsoleError (lit "Search error:"); SetError (Some (error_text t));
         SetResults (JArray []); SetIsLoading false]
    | Resolved r =>
        if ok r then
          match json r with
          | Some data => [SetResults data; SetIsLoading false]
          | None =>
              [ConsoleError (lit "Failed to parse JSON response:");
               ConsoleError (lit "Search error:");
               SetError (Some invalid_response_message);
               SetResults (JArray []); SetIsLoading false]
          end
        else
          [ConsoleError (lit "Search error:");
           SetError (Some (unavailable_message r));
           SetResults (JArray []); SetIsLoading false]
    end.
Proof.
  intros Hk Hq. unfold handleSearch, encode. rewrite Hk, Hq.
  destruct o as [r|t]; [|reflexivity].
  cbn -[ok reject_not_ok parse_body lit search_url].
  destruct (ok r) eqn:Hok; cbn -[reject_not_ok parse_body lit search_url].
  - unfold parse_body, response_json. destruct (json r); reflexivity.
  - rewrite reject_not_ok_throws. reflexivity.
Qed.

(** The trace of a search whose query cannot be encoded. *)
Lemma handleSearch_trace_uri_error env o st :
  JSString.truthy (trim (keyword st)) = true ->
  encodeURIComponent (keyword st) = None ->
  trace (handleSearch env o st) =
    [SetIsLoading true; SetError None; SetHasSearched true;
     SetShowQuestionOptions false; SetShowKeywordOptions false;
     ConsoleError (lit "Search error:");
     SetError (Some (uri_error_message env));
     SetResults (JArray []); SetIsLoading false].
Proof.
  intros Hk Hq. unfold handleSearch, encode. rewrite Hk, Hq. reflexivity.
Qed.

(** A query with an unpaired surrogate passes the guard and fails in the
    [try] block before [fetch] is reached. *)
Lemma handleSearch_unpaired_surrogate env o st :
  trim (keyword st) <> [] ->
  isWellFormed (keyword st) = false ->
  requests (trace (handleSearch env o st)) = []
  /\ error (dispatch st (handleSearch env o)) = Some (uri_error_message env)
  /\ isLoading (dispatch st (handleSearch env o)) = false.
Proof.
  intros Hk Hwf. apply truthy_nonempty in Hk.
  apply encodeURIComponent_fails in Hwf. unfold dispatch.
  rewrite (handleSearch_trace_uri_error env o st Hk Hwf).
  repeat split.
Qed.

(** A 200 whose body is [[{"id":1}]] is stored as it was parsed. *)
Example one_hit_is_stored :
  let st' := dispatch (Scenario.typed "DVN")
               (handleSearch Scenario.dev (Resolved Scenario.one_hit)) in
  json Scenario.one_hit = Some (results st') /\ error st' = None.
Proof. split; reflexivity. Qed.

(** Exactly one request leaves, and nothing after it is a request. *)
Lemma handleSearch_requests env o st q :
  JSString.truthy (trim (keyword st)) = true ->
  encodeURIComponent (keyword st) = Some q ->
  requests (trace (handleSearch env o st)) =
    [mkRequest GET (search_url env q (contentType st))].
Proof.
  intros Hk Hq. rewrite (handleSearch_trace env o st q Hk Hq).
  destruct o as [r|t]; [destruct (ok r); [destruct (json r)|]|]; reflexivity.
Qed.

(** [handleSearch] never rejects: every exception is caught inside it. *)
Lemma handleSearch_returns env o st :
  snd (handleSearch env o st) = Normal tt.
Proof.
  unfold handleSearch, encode.
  destruct (JSString.truthy (trim (keyword st))); [|reflexivity].
  destruct (encodeURIComponent (keyword st)); [|reflexivity].
  destruct o as [r|t]; [|reflexivity].
  cbn -[ok reject_not_ok parse_body lit search_url].
  destruct (ok r) eqn:Hok; cbn -[reject_not_ok parse_body lit search_url].
  - unfold parse_body, response_json. destruct (json r); reflexivity.
  - rewrite reject_not_ok_throws. reflexivity.
Qed.

(** Every search that passes the guard records that a search happened,
    however the transport settles. *)
Lemma handleSearch_marks_searched env o st :
  trim (keyword st) <> [] ->
  hasSearched (dispatch st (handleSearch env o)) = true.
Proof.
  intros Hk. apply truthy_nonempty in Hk. unfold dispatch.
  destruct (encodeURIComponent (keyword st)) as [q|] eqn:Hq.
  - rewrite (handleSearch_trace env o st q Hk Hq).
    destruct o as [r|t]; [destruct (ok r); [destruct (json r)|]|]; reflexivity.
  - rewrite (handleSearch_trace_uri_error env o st Hk Hq). reflexivity.
Qed.

(** The chip handlers run [handleSearch] of the render that drew the chip:
    the label they pass to [setKeyword] is not what that closure reads. *)
Lemma handleKeywordClick_trace env o st s :
  trace (handleKeywordClick env o st s) =
  SetKeyword s :: trace (handleSearch env o st).
Proof.
  unfold handleKeywordClick, spawn, trace, setKeyword, emit, bind.
  reflexivity.
Qed.

Lemma handleQuestionClick_trace env o st s :
  trace (handleQuestionClick env o st s) =
  SetKeyword s :: trace (handleSearch env o st).
Proof.
  unfold handleQuestionClick, spawn, trace, setKeyword, emit, bind.
  reflexivity.
Qed.

Lemma chip_labels_not_blank :
  Forall (fun s => trim s <> []) (keywordOptions ++ questionOptions).
Proof. vm_compute. repeat constructor; discriminate. Qed.

(** From the first render, a chip only fills the input. *)
Lemma chip_on_first_render env o s :
  trim s <> [] ->
  select_keyword_chip env o initial s = dispatch initial (fun _ => onChange s)
  /\ select_question_chip env o initial s
     = dispatch initial (fun _ => onChange s)
  /\ requests (trace (handleKeywordClick env o initial s)) = []
  /\ requests (trace (handleQuestionClick env o initial s)) = []
  /\ hasSearched (type_then_enter env o initial s) = true
  /\ select_keyword_chip env o initial s <> type_then_enter env o initial s
  /\ select_question_chip env o initial s <> type_then_enter env o initial s.
Proof.
  intros Hs.
  assert (Hsearched : hasSearched (type_then_enter env o initial s) = true).
  { unfold type_then_enter.
    set (typed := dispatch initial (fun _ => onChange s)).
    unfold dispatch at 1, handleKeyDown, spawn, trace.
    change (JSString.eqb (lit "Enter") (lit "Enter")) with true. cbv iota.
    change (fst (fst (handleSearch env o typed), Normal tt))
      with (trace (handleSearch env o typed)).
    apply (handleSearch_marks_searched env o typed). exact Hs. }
  repeat split; try reflexivity; try exact Hsearched.
  - intros E. rewrite <- E in Hsearched. discriminate.
  - intros E. rewrite <- E in Hsearched. discriminate.
Qed.

(* ================================================================== *)
(** ** The easing curve *)

Section EasingFacts.

Local Open Scope Q_scope.

Lemma easeInOutQuad_first_half (t : Q) :
  t < 1 # 2 -> easeInOutQuad t == 2 * t * t.
Proof.
  intros H. unfold easeInOutQuad.
  destruct (Qlt_le_dec t (1 # 2)) as [_|Hge]; [reflexivity | lra].
Qed.

Lemma easeInOutQuad_second_half (t : Q) :
  1 # 2 <= t -> easeInOutQuad t == 1 - (1 # 2) * ((2 - 2 * t) * (2 - 2 * t)).
Proof.
  intros H. unfold easeInOutQuad.
  destruct (Qlt_le_dec t (1 # 2)) as [Hlt|_]; [lra|].
  simpl Qpower. field.
Qed.

Lemma easeInOutQuad_monotone (a b : Q) :
  0 <= a -> a <= b -> b <= 1 -> easeInOutQuad a <= easeInOutQuad b.
Proof.
  intros H0 Hab H1.
  destruct (Qlt_le_dec a (1 # 2)) as [Ha|Ha];
    destruct (Qlt_le_dec b (1 # 2)) as [Hb|Hb].
  - rewrite (easeInOutQuad_first_half a Ha), (easeInOutQuad_first_half b Hb).
    assert (0 <= (b - a) * (b + a)) by (apply Qmult_le_0_compat; lra).
    nra.
  - rewrite (easeInOutQuad_first_half a Ha), (easeInOutQuad_second_half b Hb).
    assert (0 <= ((1 # 2) - a) * ((1 # 2) + a))
      by (apply Qmult_le_0_compat; lra).
    assert (0 <= (b - (1 # 2)) * ((3 # 2) - b))
      by (apply Qmult_le_0_compat; lra).
    nra.
  - lra.
  - rewrite (easeInOutQuad_second_half a Ha), (easeInOutQuad_second_half b Hb).
    assert (0 <= (b - a) * ((2 - a) + (2 - b) - 2))
      by (apply Qmult_le_0_compat; lra).
    nra.
Qed.

End EasingFacts.

(* ================================================================== *)
(** ** The claims *)

(** [C1] A 500 response whose body is [{"error":"db down"}] does not leave
    ["db down"] in [error]: the inner [try] raises an [Error] carrying the
    server's message, the [catch] attached to that same [try] replaces it,
    and [error] ends up holding the synthesized status message.  [results]
    is emptied as claimed. *)
Theorem C1_server_message_is_replaced (env : Env) :
  let st' :=
    dispatch (Scenario.typed "DVN")
             (handleSearch env (Resolved Scenario.db_down)) in
  throw_server_error Scenario.db_down = throw (NewError (JString (lit "db down")))
  /\ error st' =
       Some (lit "Error: 500 Internal Server Error. The API endpoint may not be available.")
  /\ error st' <> Some (lit "db down")
  /\ results st' = JArray [].
Proof.
  destruct env as [prod msg].
  repeat split; try reflexivity.
  vm_compute. discriminate.
Qed.

(** [C2] Selecting a chip is not the same as typing its label and pressing
    Enter.  On the first render no chip of either list issues a request:
    the chip only fills the input, where typing the label and pressing
    Enter runs a search.  On a later render the chip searches for the text
    that was in the input before the click. *)
Theorem C2_chip_submits_the_captured_query :
  Forall
    (fun s => forall env o,
       select_keyword_chip env o initial s
         = dispatch initial (fun _ => onChange s)
       /\ select_question_chip env o initial s
         = dispatch initial (fun _ => onChange s)
       /\ requests (trace (handleKeywordClick env o initial s)) = []
       /\ requests (trace (handleQuestionClick env o initial s)) = []
       /\ hasSearched (type_then_enter env o initial s) = true
       /\ select_keyword_chip env o initial s
            <> type_then_enter env o initial s
       /\ select_question_chip env o initial s
            <> type_then_enter env o initial s)
    (keywordOptions ++ questionOptions)
  /\ (forall o,
        requests (trace (handleKeywordClick Scenario.dev o
                           (Scenario.typed "DVN") (lit "Oracle")))
        = [mkRequest GET (lit "/api/search?q=DVN&type=all")]).
Proof.
  split.
  - eapply Forall_impl; [|exact chip_labels_not_blank].
    intros s Hs env o. now apply chip_on_first_render.
  - intros o. rewrite handleKeywordClick_trace.
    change (requests (SetKeyword (lit "Oracle") :: ?t)) with (requests t).
    apply (handleSearch_requests Scenario.dev o (Scenario.typed "DVN")
             (lit "DVN") eq_refl eq_refl).
Qed.

(** [C3], as stated, fails: the results of the previous search are still
    in [results] when the next request leaves. *)
Lemma C3_results_not_cleared_at_start :
  ~ (forall env o st,
       trim (keyword st) <> [] ->
       let at_dispatch :=
         run st (before_request (trace (handleSearch env o st))) in
       results at_dispatch = JArray [] /\ error at_dispatch = None).
Proof.
  intros H.
  destruct (H Scenario.dev (Resolved Scenario.one_hit)
              Scenario.showing_results) as [Hres _].
  - vm_compute. discriminate.
  - vm_compute in Hres. discriminate.
Qed.

(** [C3], amended: when a search issues its request, [error] has been set
    to [null] before the request leaves, and [results] still holds what it
    held when the handler was called. *)
Theorem C3_error_cleared_before_request env o st r :
  trim (keyword st) <> [] ->
  requests (trace (handleSearch env o st)) = [r] ->
  let at_dispatch :=
    run st (before_request (trace (handleSearch env o st))) in
  error at_dispatch = None /\ results at_dispatch = results st.
Proof.
  intros Hk Hr. apply truthy_nonempty in Hk.
  destruct (encodeURIComponent (keyword st)) as [q|] eqn:Hq.
  - cbv zeta. rewrite (handleSearch_trace env o st q Hk Hq).
    split; reflexivity.
  - rewrite (handleSearch_trace_uri_error env o st Hk Hq) in Hr.
    discriminate.
Qed.

Lemma C3_error_cleared_before_request_witness :
  trim (keyword Scenario.showing_results) <> []
  /\ error (run Scenario.showing_results
              (before_request
                 (trace (handleSearch Scenario.dev
                           (Resolved Scenario.db_down)
                           Scenario.showing_results)))) = None.
Proof.
  split.
  - vm_compute. discriminate.
  - apply (C3_error_cleared_before_request Scenario.dev
             (Resolved Scenario.db_down) Scenario.showing_results
             (mkRequest GET (lit "/api/search?q=Oracle&type=all"))).
    + vm_compute. discriminate.
    + reflexivity.
Defined.

(** [C4] A query that is empty or made of white space only is ignored:
    [handleSearch] returns at once, issues no request, calls no setter, and
    the state after the event is the state before it. *)
Theorem C4_blank_query_is_ignored env o st :
  forallb is_white_space (keyword st) = true ->
  handleSearch env o st = ret tt
  /\ requests (trace (handleSearch env o st)) = []
  /\ dispatch st (handleSearch env o) = st.
Proof.
  intros Hb.
  assert (E : handleSearch env o st = ret tt).
  { apply handleSearch_blank. now rewrite (trim_blank _ Hb). }
  unfold dispatch. rewrite E. repeat split.
Qed.

Lemma C4_blank_query_is_ignored_witness :
  forallb is_white_space (keyword (Scenario.typed "  	 ")) = true
  /\ dispatch (Scenario.typed "  	 ")
       (handleSearch Scenario.dev (Resolved Scenario.one_hit))
     = Scenario.typed "  	 ".
Proof.
  split.
  - reflexivity.
  - apply (C4_blank_query_is_ignored Scenario.dev
             (Resolved Scenario.one_hit) (Scenario.typed "  	 ")).
    reflexivity.
Defined.

(** [C5] A search that passes the guard sets [isLoading] first, so it is
    [true] when the request leaves; whatever the outcome (a parsed 2xx
    body, a non-2xx status, a 2xx body that is not JSON, a rejected
    [fetch], or a query that cannot be encoded) the last effect of the
    handler sets [isLoading] to [false], from whatever state the settlement
    finds; and the handler itself always returns. *)
Theorem C5_isLoading_brackets_the_request env o st :
  trim (keyword st) <> [] ->
  let t := trace (handleSearch env o st) in
  snd (handleSearch env o st) = Normal tt
  /\ hd_error t = Some (SetIsLoading true)
  /\ last t (SetIsLoading true) = SetIsLoading false
  /\ (requests t <> [] -> isLoading (run st (before_request t)) = true)
  /\ (requests t <> [] ->
      forall st', isLoading (run st' (after_request t)) = false)
  /\ isLoading (run st t) = false.
Proof.
  intros Hk. apply truthy_nonempty in Hk. cbv zeta.
  split; [apply handleSearch_returns|].
  destruct (encodeURIComponent (keyword st)) as [q|] eqn:Hq.
  - rewrite (handleSearch_trace env o st q Hk Hq).
    destruct o as [r|t]; [destruct (ok r); [destruct (json r)|]|];
      repeat split.
  - rewrite (handleSearch_trace_uri_error env o st Hk Hq).
    repeat split; intros H; now elim H.
Qed.

Lemma C5_isLoading_brackets_the_request_witness :
  trim (keyword (Scenario.typed "DVN")) <> []
  /\ isLoading
       (run (Scenario.typed "DVN")
          (trace (handleSearch Scenario.dev (Resolved Scenario.not_json)
                    (Scenario.typed "DVN")))) = false.
Proof.
  split.
  - vm_compute. discriminate.
  - apply (C5_isLoading_brackets_the_request Scenario.dev
             (Resolved Scenario.not_json) (Scenario.typed "DVN")).
    vm_compute. discriminate.
Defined.

(** The malformed-response message is none of the messages built from a
    status line. *)
Lemma invalid_response_is_distinct (r : Response) :
  invalid_response_message <> unavailable_message r
  /\ invalid_response_message <> status_line r.
Proof.
  split; intros E; apply (f_equal (hd_error (A := N))) in E;
    vm_compute in E; discriminate.
Qed.

(** [C6] A 2xx response whose body is not JSON stores the malformed-response
    message in [error], whatever state the settlement finds.  That message
    differs from the message of every non-2xx response, [error] is not
    [null], so the empty [results] is not presented as a successful empty
    answer. *)
Theorem C6_malformed_body_is_an_error env st r :
  trim (keyword st) <> [] ->
  isWellFormed (keyword st) = true ->
  ok r = true ->
  json r = None ->
  let t := trace (handleSearch env (Resolved r) st) in
  (forall st',
     error (run st' (after_request t)) = Some invalid_response_message
     /\ results (run st' (after_request t)) = JArray [])
  /\ error (dispatch st (handleSearch env (Resolved r)))
     = Some invalid_response_message
  /\ invalid_response_message
     = lit "The API returned an invalid response. Please check server configuration."
  /\ (forall r', invalid_response_message <> unavailable_message r').
Proof.
  intros Hk Hwf Hok Hj. apply truthy_nonempty in Hk.
  destruct (encodeURIComponent_defined _ Hwf) as [q Hq].
  cbv zeta. unfold dispatch.
  rewrite (handleSearch_trace env (Resolved r) st q Hk Hq), Hok, Hj.
  repeat split. intros r'. apply invalid_response_is_distinct.
Qed.

Lemma C6_malformed_body_is_an_error_witness :
  (trim (keyword (Scenario.typed "DVN")) <> []
   /\ isWellFormed (keyword (Scenario.typed "DVN")) = true
   /\ ok Scenario.not_json = true
   /\ json Scenario.not_json = None)
  /\ error (dispatch (Scenario.typed "DVN")
              (handleSearch Scenario.dev (Resolved Scenario.not_json)))
     = Some invalid_response_message.
Proof.
  split.
  - repeat split. vm_compute. discriminate.
  - apply (C6_malformed_body_is_an_error Scenario.dev
             (Scenario.typed "DVN") Scenario.not_json);
      [vm_compute; discriminate | reflexivity | reflexivity | reflexivity].
Defined.

(** [C7] Over the rationals, [easeInOutQuad] takes 0 to 0, 1 to 1 and 1/2
    to 1/2, and is non-decreasing on the interval from 0 to 1. *)
Theorem C7_easeInOutQuad_endpoints_and_monotone :
  (easeInOutQuad 0 == 0
   /\ easeInOutQuad 1 == 1
   /\ easeInOutQuad (1 # 2) == 1 # 2
   /\ forall a b, 0 <= a -> a <= b -> b <= 1 ->
        easeInOutQuad a <= easeInOutQuad b)%Q.
Proof.
  repeat split; try reflexivity.
  apply easeInOutQuad_monotone.
Qed.

Lemma C7_easeInOutQuad_endpoints_and_monotone_witness :
  ((0 <= 1 # 4 /\ 1 # 4 <= 3 # 4 /\ 3 # 4 <= 1)
   /\ easeInOutQuad (1 # 4) <= easeInOutQuad (3 # 4))%Q.
Proof.
  split.
  - repeat split; discriminate.
  - apply (proj2 (proj2 (proj2 C7_easeInOutQuad_endpoints_and_monotone)));
      discriminate.
Defined.

(** [C8], as stated, fails: [resetSearch] leaves the content-type filter
    as the user set it. *)
Lemma C8_content_type_survives_reset :
  ~ (forall st, dispatch st (fun _ => resetSearch) = initial).
Proof.
  intros H. specialize (H Scenario.news_selected).
  apply (f_equal contentType) in H. vm_compute in H. discriminate.
Qed.

(** [C8], amended: [resetSearch] empties the query text, [results] and
    [error], clears [hasSearched] and shows both suggestion panels again;
    the content-type filter and [isLoading] keep their values. *)
Theorem C8_resetSearch_state (st : State) :
  dispatch st (fun _ => resetSearch) =
  {| keyword := lit "";
     contentType := contentType st;
     isLoading := isLoading st;
     hasSearched := false;
     results := JArray [];
     error := None;
     showQuestionOptions := true;
     showKeywordOptions := true |}.
Proof. reflexivity. Qed.

(** [C9], as stated, fails: a query holding an unpaired surrogate is not
    blank, and no request leaves for it. *)
Lemma C9_no_request_for_unpaired_surrogate :
  ~ (forall env o st,
       trim (keyword st) <> [] ->
       exists r, requests (trace (handleSearch env o st)) = [r]).
Proof.
  intros H.
  destruct (H Scenario.dev (Resolved Scenario.one_hit) Scenario.half_emoji)
    as [r Hr].
  - vm_compute. discriminate.
  - vm_compute in Hr. discriminate.
Qed.

(** [C9], amended: for a query that is not blank and has no unpaired
    surrogate, exactly one request leaves, a GET whose URL is the base,
    [/api/search?q=], the URI-component encoding of the query text,
    [&type=], and the content type as it stands in the state. *)
Theorem C9_one_request_for_well_formed_query env o st :
  trim (keyword st) <> [] ->
  isWellFormed (keyword st) = true ->
  exists q,
    encodeURIComponent (keyword st) = Some q
    /\ requests (trace (handleSearch env o st)) =
       [mkRequest GET
          (baseUrl env ++ lit "/api/search?q=" ++ q ++ lit "&type="
             ++ contentType st)].
Proof.
  intros Hk Hwf. apply truthy_nonempty in Hk.
  destruct (encodeURIComponent_defined _ Hwf) as [q Hq].
  exists q. split; [exact Hq|].
  apply (handleSearch_requests env o st q Hk Hq).
Qed.

Lemma C9_one_request_for_well_formed_query_witness :
  (trim (keyword (Scenario.typed "What is LayerZero??")) <> []
   /\ isWellFormed (keyword (Scenario.typed "What is LayerZero??")) = true)
  /\ exists q,
       encodeURIComponent (keyword (Scenario.typed "What is LayerZero??"))
         = Some q
       /\ requests
            (trace (handleSearch (mkEnv true (lit "URI malformed"))
                      (Resolved Scenario.one_hit)
                      (Scenario.typed "What is LayerZero??")))
          = [mkRequest GET
               (baseUrl (mkEnv true (lit "URI malformed"))
                  ++ lit "/api/search?q=" ++ q ++ lit "&type="
                  ++ contentType (Scenario.typed "What is LayerZero??"))].
Proof.
  split.
  - split; [vm_compute; discriminate | reflexivity].
  - apply (C9_one_request_for_well_formed_query
             (mkEnv true (lit "URI malformed")) (Resolved Scenario.one_hit)
             (Scenario.typed "What is LayerZero??"));
      [vm_compute; discriminate | reflexivity].
Defined.

(** [C10] For every non-2xx response, whatever its body, [error] becomes
    ["Error: <status> <statusText>. The API endpoint may not be available."]
    and [results] becomes empty, from whatever state the settlement
    finds. *)
Theorem C10_not_ok_message_is_synthesized env st r :
  trim (keyword st) <> [] ->
  isWellFormed (keyword st) = true ->
  ok r = false ->
  let t := trace (handleSearch env (Resolved r) st) in
  let message :=
    lit "Error: " ++ of_status (status r) ++ lit " " ++ statusText r
      ++ lit ". The API endpoint may not be available." in
  reject_not_ok r = throw (ErrorObj message)
  /\ (forall st',
        error (run st' (after_request t)) = Some message
        /\ results (run st' (after_request t)) = JArray [])
  /\ error (dispatch st (handleSearch env (Resolved r))) = Some message.
Proof.
  intros Hk Hwf Hok. apply truthy_nonempty in Hk.
  destruct (encodeURIComponent_defined _ Hwf) as [q Hq].
  cbv zeta.
  assert (E : unavailable_message r =
              lit "Error: " ++ of_status (status r) ++ lit " " ++ statusText r
                ++ lit ". The API endpoint may not be available.").
  { unfold unavailable_message, status_line. now rewrite <- !app_assoc. }
  rewrite <- E. unfold dispatch.
  rewrite (handleSearch_trace env (Resolved r) st q Hk Hq), Hok.
  split; [apply reject_not_ok_throws|]. repeat split.
Qed.

Lemma C10_not_ok_message_is_synthesized_witness :
  (trim (keyword (Scenario.typed "DVN")) <> []
   /\ isWellFormed (keyword (Scenario.typed "DVN")) = true
   /\ ok Scenario.db_down = false)
  /\ error (dispatch (Scenario.typed "DVN")
              (handleSearch Scenario.dev (Resolved Scenario.db_down)))
     = Some (lit "Error: 500 Internal Server Error. The API endpoint may not be available.").
Proof.
  split.
  - repeat split. vm_compute. discriminate.
  - apply (C10_not_ok_message_is_synthesized Scenario.dev
             (Scenario.typed "DVN") Scenario.db_down);
      [vm_compute; discriminate | reflexivity | reflexivity].
Defined.

(* ================================================================== *)
(** ** More on [handleSearch] *)

(** Splits a goal about [trace (handleSearch env o st)] into the ways the
    handler can run: skipped by the guard, stopped by the encoder, or sent
    and settled as a parsed 2xx, an unparsable 2xx, a non-2xx or a
    rejection. *)
Ltac search_cases env o st :=
  let Hk := fresh "Hk" in
  let Hq := fresh "Hq" in
  let q := fresh "q" in
  destruct (JSString.truthy (trim (keyword st))) eqn:Hk;
  [ destruct (encodeURIComponent (keyword st)) as [q|] eqn:Hq;
    [ rewrite (handleSearch_trace env o st q Hk Hq);
      let r := fresh "r" in
      let t := fresh "t" in
      destruct o as [r|t];
      [ destruct (ok r) eqn:?; [destruct (json r) eqn:?|] | ]
    | rewrite (handleSearch_trace_uri_error env o st Hk Hq) ]
  | rewrite (handleSearch_blank env o st Hk) ].

(** A 2xx response whose body parses is stored as parsed, whatever JSON
    value it is; at settlement nothing but [results] and [isLoading] is
    written, so [error] is the [null] set when the search began only if
    nothing wrote it in between. *)
Theorem handleSearch_stores_parsed_body env st r data :
  trim (keyword st) <> [] ->
  isWellFormed (keyword st) = true ->
  ok r = true ->
  json r = Some data ->
  dispatch st (handleSearch env (Resolved r)) =
    {| keyword := keyword st;
       contentType := contentType st;
       isLoading := false;
       hasSearched := true;
       results := data;
       error := None;
       showQuestionOptions := false;
       showKeywordOptions := false |}
  /\ after_request (trace (handleSearch env (Resolved r) st))
     = [SetResults data; SetIsLoading false].
Proof.
  intros Hk Hwf Hok Hj. apply truthy_nonempty in Hk.
  destruct (encodeURIComponent_defined _ Hwf) as [q Hq].
  unfold dispatch.
  rewrite (handleSearch_trace env (Resolved r) st q Hk Hq), Hok, Hj.
  split; reflexivity.
Qed.

Lemma handleSearch_stores_parsed_body_witness :
  (trim (keyword (Scenario.typed "DVN")) <> []
   /\ isWellFormed (keyword (Scenario.typed "DVN")) = true
   /\ ok (mkResponse 201 (lit "Created") (Some JNull)) = true
   /\ json (mkResponse 201 (lit "Created") (Some JNull)) = Some JNull)
  /\ results
       (dispatch (Scenario.typed "DVN")
          (handleSearch Scenario.dev
             (Resolved (mkResponse 201 (lit "Created") (Some JNull)))))
     = JNull.
Proof.
  split.
  - repeat split. vm_compute. discriminate.
  - refine (f_equal results
              (proj1 (handleSearch_stores_parsed_body Scenario.dev
                        (Scenario.typed "DVN")
                        (mkResponse 201 (lit "Created") (Some JNull))
                        JNull _ _ _ _)));
      [vm_compute; discriminate | reflexivity | reflexivity | reflexivity].
Defined.

(** When [fetch] itself rejects, [error] is the [message] of the rejection
    if it is an [Error] and ["An unknown error occurred"] otherwise, and
    [results] is emptied. *)
Theorem handleSearch_transport_failure env st t :
  trim (keyword st) <> [] ->
  isWellFormed (keyword st) = true ->
  dispatch st (handleSearch env (Rejected t)) =
    {| keyword := keyword st;
       contentType := contentType st;
       isLoading := false;
       hasSearched := true;
       results := JArray [];
       error := Some match t with
                     | ErrorObj message => message
                     | NonError => lit "An unknown error occurred"
                     end;
       showQuestionOptions := false;
       showKeywordOptions := false |}.
Proof.
  intros Hk Hwf. apply truthy_nonempty in Hk.
  destruct (encodeURIComponent_defined _ Hwf) as [q Hq].
  unfold dispatch.
  rewrite (handleSearch_trace env (Rejected t) st q Hk Hq).
  destruct t; reflexivity.
Qed.

Lemma handleSearch_transport_failure_witness :
  (trim (keyword (Scenario.typed "DVN")) <> []
   /\ isWellFormed (keyword (Scenario.typed "DVN")) = true)
  /\ error
       (dispatch (Scenario.typed "DVN")
          (handleSearch Scenario.dev
             (Rejected (ErrorObj (lit "Failed to fetch")))))
     = Some (lit "Failed to fetch").
Proof.
  split.
  - split; [vm_compute; discriminate | reflexivity].
  - refine (f_equal error
              (handleSearch_transport_failure Scenario.dev
                 (Scenario.typed "DVN") (ErrorObj (lit "Failed to fetch"))
                 _ _));
      [vm_compute; discriminate | reflexivity].
Defined.

(** A query that is not blank but holds an unpaired surrogate never
    reaches the transport: the handler runs to its end within the event,
    whatever the transport would have answered, and leaves the encoder's
    message in [error]. *)
Theorem handleSearch_unencodable_query env o st :
  trim (keyword st) <> [] ->
  isWellFormed (keyword st) = false ->
  requests (trace (handleSearch env o st)) = []
  /\ dispatch st (handleSearch env o) =
     {| keyword := keyword st;
        contentType := contentType st;
        isLoading := false;
        hasSearched := true;
        results := JArray [];
        error := Some (uri_error_message env);
        showQuestionOptions := false;
        showKeywordOptions := false |}.
Proof.
  intros Hk Hwf. apply truthy_nonempty in Hk.
  apply encodeURIComponent_fails in Hwf. unfold dispatch.
  rewrite (handleSearch_trace_uri_error env o st Hk Hwf).
  split; reflexivity.
Qed.

Lemma handleSearch_unencodable_query_witness :
  (trim (keyword Scenario.half_emoji) <> []
   /\ isWellFormed (keyword Scenario.half_emoji) = false)
  /\ requests
       (trace (handleSearch Scenario.dev (Resolved Scenario.one_hit)
                 Scenario.half_emoji)) = [].
Proof.
  split.
  - split; [vm_compute; discriminate | reflexivity].
  - refine (proj1 (handleSearch_unencodable_query Scenario.dev
                     (Resolved Scenario.one_hit) Scenario.half_emoji _ _));
      [vm_compute; discriminate | reflexivity].
Defined.

(** The guard skips the white-space-only queries and no others: every
    other query makes the handler call setters. *)
Theorem handleSearch_skips_exactly_blank env o st :
  trace (handleSearch env o st) = []
  <-> forallb is_white_space (keyword st) = true.
Proof.
  split.
  - intros Ht. apply trim_empty_blank.
    destruct (trim (keyword st)) eqn:E; [reflexivity|].
    exfalso. revert Ht.
    search_cases env o st; try discriminate.
    rewrite E in *. discriminate.
  - intros Hb. rewrite handleSearch_blank; [reflexivity|].
    now rewrite (trim_blank _ Hb).
Qed.

(** Whatever state its setters land on, a search writes neither the query
    text nor the content type, and unless the guard skipped it, it leaves
    [hasSearched] set and both suggestion panels closed. *)
Theorem handleSearch_frame env o st st' :
  let after := run st' (trace (handleSearch env o st)) in
  keyword after = keyword st'
  /\ contentType after = contentType st'
  /\ (trim (keyword st) <> [] ->
      hasSearched after = true
      /\ showQuestionOptions after = false
      /\ showKeywordOptions after = false
      /\ isLoading after = false).
Proof.
  cbv zeta. split; [|split].
  - search_cases env o st; reflexivity.
  - search_cases env o st; reflexivity.
  - intros H. apply truthy_nonempty in H.
    search_cases env o st; try congruence; repeat split.
Qed.

Lemma handleSearch_frame_witness :
  trim (keyword (Scenario.typed "DVN")) <> []
  /\ hasSearched
       (run Scenario.news_selected
          (trace (handleSearch Scenario.dev (Resolved Scenario.db_down)
                    (Scenario.typed "DVN")))) = true.
Proof.
  split.
  - vm_compute. discriminate.
  - refine (proj1 (proj2 (proj2 (handleSearch_frame Scenario.dev
              (Resolved Scenario.db_down) (Scenario.typed "DVN")
              Scenario.news_selected)) _)).
    vm_compute. discriminate.
Defined.

(* ================================================================== *)
(** ** What the encoder lets through *)

Lemma hex_digit_unescaped (d : N) : d < 16 -> is_unescaped (hex_digit d) = true.
Proof.
  intros H. unfold is_unescaped, is_ascii_word, hex_digit.
  destruct (d <? 10) eqn:E.
  - apply N.ltb_lt in E.
    repeat rewrite ?orb_true_iff, ?andb_true_iff, ?N.eqb_eq, ?N.leb_le. lia.
  - apply N.ltb_ge in E.
    repeat rewrite ?orb_true_iff, ?andb_true_iff, ?N.eqb_eq, ?N.leb_le. lia.
Qed.

Lemma percent_octet_safe (b : N) :
  b < 256 ->
  Forall (fun c => is_unescaped c = true \/ c = 0x25) (percent_octet b).
Proof.
  intros H. unfold percent_octet.
  apply Forall_cons; [now right|].
  apply Forall_cons;
    [left; apply hex_digit_unescaped; apply N.Div0.div_lt_upper_bound; lia|].
  apply Forall_cons;
    [left; apply hex_digit_unescaped; apply N.mod_lt; lia|].
  constructor.
Qed.

Lemma utf8_octets_bytes (cp : N) :
  cp < 0x110000 -> Forall (fun b => b < 256) (utf8_octets cp).
Proof.
  intros H. unfold utf8_octets.
  assert (M : forall x, x mod 0x40 < 0x40) by (intros; apply N.mod_lt; lia).
  destruct (cp <=? 0x7F) eqn:E1; [apply N.leb_le in E1; repeat constructor; lia|].
  destruct (cp <=? 0x7FF) eqn:E2.
  { apply N.leb_le in E2. repeat constructor.
    - assert (cp / 0x40 < 0x20) by (apply N.Div0.div_lt_upper_bound; lia). lia.
    - specialize (M cp). lia. }
  destruct (cp <=? 0xFFFF) eqn:E3.
  { apply N.leb_le in E3. repeat constructor.
    - assert (cp / 0x1000 < 0x10) by (apply N.Div0.div_lt_upper_bound; lia). lia.
    - specialize (M (cp / 0x40)). lia.
    - specialize (M cp). lia. }
  repeat constructor.
  - assert (cp / 0x40000 < 0x5) by (apply N.Div0.div_lt_upper_bound; lia). lia.
  - specialize (M (cp / 0x1000)). lia.
  - specialize (M (cp / 0x40)). lia.
  - specialize (M cp). lia.
Qed.

Lemma escape_code_point_safe (cp : N) :
  cp < 0x110000 ->
  Forall (fun c => is_unescaped c = true \/ c = 0x25) (escape_code_point cp).
Proof.
  intros H. unfold escape_code_point.
  induction (utf8_octets_bytes cp H) as [|b bs Hb _ IH].
  - constructor.
  - change (flat_map percent_octet (b :: bs))
      with (percent_octet b ++ flat_map percent_octet bs).
    apply Forall_app. split; [now apply percent_octet_safe | exact IH].
Qed.

Lemma surrogate_pair_in_range (lead trail : N) :
  is_leading_surrogate lead = true ->
  is_trailing_surrogate trail = true ->
  UTF16SurrogatePairToCodePoint lead trail < 0x110000.
Proof.
  unfold is_leading_surrogate, is_trailing_surrogate,
    UTF16SurrogatePairToCodePoint.
  rewrite !andb_true_iff, !N.leb_le. lia.
Qed.

Lemma encodeURIComponent_safe_upto (n : nat) :
  forall s q, (List.length s <= n)%nat ->
    Forall (fun c => c < 0x10000) s ->
    encodeURIComponent s = Some q ->
    Forall (fun c => is_unescaped c = true \/ c = 0x25) q.
Proof.
  induction n as [|n IH]; intros s q Hlen Hcu Henc.
  - destruct s; [|simpl in Hlen; lia]. injection Henc as <-. constructor.
  - destruct s as [|c tl]; [injection Henc as <-; constructor|].
    simpl in Hlen, Henc. inversion Hcu as [|? ? Hc Htl]; subst.
    destruct (is_unescaped c) eqn:Hu.
    + destruct (encodeURIComponent tl) as [q'|] eqn:E; [|discriminate].
      injection Henc as <-. constructor; [now left|].
      apply (IH tl q'); [lia | exact Htl | exact E].
    + destruct (is_trailing_surrogate c); [discriminate|].
      destruct (is_leading_surrogate c) eqn:Hl.
      * destruct tl as [|c2 tl2]; [discriminate|].
        destruct (is_trailing_surrogate c2) eqn:Ht; [|discriminate].
        destruct (encodeURIComponent tl2) as [q'|] eqn:E; [|discriminate].
        injection Henc as <-. simpl in Hlen.
        inversion Htl as [|? ? _ Htl2]; subst.
        apply Forall_app. split.
        -- apply escape_code_point_safe.
           now apply surrogate_pair_in_range.
        -- apply (IH tl2 q'); [lia | exact Htl2 | exact E].
      * destruct (encodeURIComponent tl) as [q'|] eqn:E; [|discriminate].
        injection Henc as <-. apply Forall_app. split.
        -- apply escape_code_point_safe. lia.
        -- apply (IH tl q'); [lia | exact Htl | exact E].
Qed.

Lemma encodeURIComponent_safe (s q : jsstring) :
  Forall (fun c => c < 0x10000) s ->
  encodeURIComponent s = Some q ->
  Forall (fun c => is_unescaped c = true \/ c = 0x25) q.
Proof. apply (encodeURIComponent_safe_upto (List.length s)). lia. Qed.

Lemma encodeURIComponent_unreserved (s : jsstring) :
  forallb is_unescaped s = true -> encodeURIComponent s = Some s.
Proof.
  induction s as [|c tl IH]; [reflexivity|].
  simpl. intros H. apply andb_true_iff in H as [Hc Htl].
  now rewrite Hc, (IH Htl).
Qed.

Lemma safe_excludes (c : N) (q : jsstring) :
  Forall (fun c => is_unescaped c = true \/ c = 0x25) q ->
  is_unescaped c = false -> c <> 0x25 -> ~ In c q.
Proof.
  intros Hq Hc Hp Hin. rewrite Forall_forall in Hq.
  destruct (Hq c Hin) as [H|H]; congruence.
Qed.

Lemma unescaped_not_white (c : N) :
  is_unescaped c = true -> is_white_space c = false.
Proof.
  intros H. apply not_true_is_false. intros W. revert H W.
  unfold is_unescaped, is_ascii_word, is_uri_mark, is_white_space.
  repeat rewrite ?orb_true_iff, ?andb_true_iff, ?N.eqb_eq, ?N.leb_le.
  lia.
Qed.

Lemma trimStart_keeps (s : jsstring) :
  match s with [] => True | c :: _ => is_white_space c = false end ->
  trimStart s = s.
Proof. destruct s as [|c tl]; [reflexivity|]. simpl. now intros ->. Qed.

Lemma unreserved_not_blank (s : jsstring) :
  s <> [] -> forallb is_unescaped s = true -> trim s = s.
Proof.
  intros Hne Hs. rewrite forallb_forall in Hs.
  unfold trim, trimEnd.
  rewrite (trimStart_keeps s).
  - rewrite (trimStart_keeps (rev s)); [apply rev_involutive|].
    destruct (rev s) as [|c tl] eqn:E; [exact I|].
    apply unescaped_not_white, Hs, in_rev. rewrite E. now left.
  - destruct s as [|c tl]; [exact I|].
    apply unescaped_not_white, Hs. now left.
Qed.

(** The text of the query cannot leave its place in the URL: whatever is
    typed, the [q] parameter of a request that is sent holds only
    unreserved characters and percent escapes, so no [&], [=], [#], [?],
    [/] or space of the query reaches the URL as such. *)
Theorem handleSearch_query_is_confined env o st r :
  Forall (fun c => c < 0x10000) (keyword st) ->
  In r (requests (trace (handleSearch env o st))) ->
  exists q,
    encodeURIComponent (keyword st) = Some q
    /\ url r = baseUrl env ++ lit "/api/search?q=" ++ q ++ lit "&type="
                 ++ contentType st
    /\ Forall (fun c => is_unescaped c = true \/ c = 0x25) q
    /\ ~ In 0x26 q /\ ~ In 0x3D q /\ ~ In 0x23 q /\ ~ In 0x3F q
    /\ ~ In 0x2F q /\ ~ In 0x20 q.
Proof.
  intros Hcu Hin.
  destruct (JSString.truthy (trim (keyword st))) eqn:Hk.
  - destruct (encodeURIComponent (keyword st)) as [q|] eqn:Hq.
    + rewrite (handleSearch_requests env o st q Hk Hq) in Hin.
      destruct Hin as [<-|[]].
      pose proof (encodeURIComponent_safe _ _ Hcu Hq) as Hsafe.
      exists q. repeat split; try exact Hsafe;
        apply (safe_excludes _ q Hsafe); (reflexivity || discriminate).
    + rewrite (handleSearch_trace_uri_error env o st Hk Hq) in Hin.
      destruct Hin.
  - rewrite (handleSearch_blank env o st Hk) in Hin. destruct Hin.
Qed.

Lemma handleSearch_query_is_confined_witness :
  (Forall (fun c => c < 0x10000) (keyword (Scenario.typed "a&type=news#"))
   /\ In (mkRequest GET (lit "/api/search?q=a%26type%3Dnews%23&type=all"))
        (requests
           (trace (handleSearch Scenario.dev (Resolved Scenario.one_hit)
                     (Scenario.typed "a&type=news#")))))
  /\ exists q,
       encodeURIComponent (keyword (Scenario.typed "a&type=news#")) = Some q
       /\ ~ In 0x26 q.
Proof.
  assert (Hcu : Forall (fun c => c < 0x10000)
                  (keyword (Scenario.typed "a&type=news#")))
    by (repeat constructor).
  assert (Hin : In (mkRequest GET
                      (lit "/api/search?q=a%26type%3Dnews%23&type=all"))
                  (requests
                     (trace (handleSearch Scenario.dev
                               (Resolved Scenario.one_hit)
                               (Scenario.typed "a&type=news#")))))
    by (left; reflexivity).
  split; [split; assumption|].
  destruct (handleSearch_query_is_confined Scenario.dev
              (Resolved Scenario.one_hit) (Scenario.typed "a&type=news#")
              _ Hcu Hin) as [q [Hq [_ [_ [Hamp _]]]]].
  exists q. split; assumption.
Defined.

(** A query made only of letters, digits and [-_.!~*'()] passes the guard
    and is sent exactly as typed. *)
Theorem handleSearch_sends_unreserved_text_as_typed env o st :
  keyword st <> [] ->
  forallb is_unescaped (keyword st) = true ->
  requests (trace (handleSearch env o st)) =
    [mkRequest GET
       (baseUrl env ++ lit "/api/search?q=" ++ keyword st ++ lit "&type="
          ++ contentType st)].
Proof.
  intros Hne Hs.
  apply handleSearch_requests.
  - rewrite (unreserved_not_blank _ Hne Hs). now apply truthy_nonempty.
  - now apply encodeURIComponent_unreserved.
Qed.

Lemma handleSearch_sends_unreserved_text_as_typed_witness :
  (keyword (Scenario.typed "Oracle") <> []
   /\ forallb is_unescaped (keyword (Scenario.typed "Oracle")) = true)
  /\ requests
       (trace (handleSearch Scenario.dev (Resolved Scenario.one_hit)
                 (Scenario.typed "Oracle")))
     = [mkRequest GET (lit "/api/search?q=Oracle&type=all")].
Proof.
  split.
  - split; [vm_compute; discriminate | reflexivity].
  - apply (handleSearch_sends_unreserved_text_as_typed Scenario.dev
             (Resolved Scenario.one_hit) (Scenario.typed "Oracle"));
      [vm_compute; discriminate | reflexivity].
Defined.

(* ================================================================== *)
(** ** More on the chips *)

Lemma handleSearch_keeps_inputs env o st st' :
  keyword (run st' (trace (handleSearch env o st))) = keyword st'
  /\ contentType (run st' (trace (handleSearch env o st))) = contentType st'.
Proof. split; search_cases env o st; reflexivity. Qed.

Lemma handleSearch_commutes_with_typing env o st st' s :
  run (apply st' (SetKeyword s)) (trace (handleSearch env o st))
  = apply (run st' (trace (handleSearch env o st))) (SetKeyword s).
Proof. search_cases env o st; reflexivity. Qed.

(** In every render, selecting a chip sends what pressing Enter would have
    sent before the click, and leaves the page as that search leaves it
    with the chip's label typed over the query afterwards: the label has
    no part in the request. *)
Theorem chip_runs_the_search_of_its_render env o st s :
  requests (trace (handleKeywordClick env o st s))
    = requests (trace (handleSearch env o st))
  /\ requests (trace (handleQuestionClick env o st s))
    = requests (trace (handleSearch env o st))
  /\ select_keyword_chip env o st s
    = dispatch (dispatch st (handleSearch env o)) (fun _ => onChange s)
  /\ select_question_chip env o st s
    = dispatch (dispatch st (handleSearch env o)) (fun _ => onChange s).
Proof.
  unfold select_keyword_chip, select_question_chip, dispatch.
  rewrite handleKeywordClick_trace, handleQuestionClick_trace.
  repeat split;
    apply (handleSearch_commutes_with_typing env o st st s).
Qed.

(** Selecting the same chip a second time is what searches for it: the
    second click runs in a render whose query is the label. *)
Theorem chip_selected_twice_searches_its_label env o1 o2 st s q :
  trim s <> [] ->
  encodeURIComponent s = Some q ->
  requests
    (trace (handleKeywordClick env o2 (select_keyword_chip env o1 st s) s))
    = [mkRequest GET (search_url env q (contentType st))]
  /\ requests
       (trace (handleQuestionClick env o2
                 (select_question_chip env o1 st s) s))
     = [mkRequest GET (search_url env q (contentType st))].
Proof.
  intros Hs Hq. apply truthy_nonempty in Hs.
  rewrite handleKeywordClick_trace, handleQuestionClick_trace.
  assert (E : select_question_chip env o1 st s
              = select_keyword_chip env o1 st s).
  { unfold select_keyword_chip, select_question_chip, dispatch.
    now rewrite handleKeywordClick_trace, handleQuestionClick_trace. }
  rewrite E. clear E.
  set (st1 := select_keyword_chip env o1 st s).
  assert (Hst1 : keyword st1 = s /\ contentType st1 = contentType st).
  { unfold st1, select_keyword_chip, dispatch.
    rewrite handleKeywordClick_trace.
    change (run st (SetKeyword s :: ?t)) with (run (apply st (SetKeyword s)) t).
    destruct (handleSearch_keeps_inputs env o1 st (apply st (SetKeyword s)))
      as [-> ->].
    split; reflexivity. }
  destruct Hst1 as [Hkw Hct].
  change (requests (SetKeyword s :: ?t)) with (requests t).
  rewrite <- Hct.
  split; apply handleSearch_requests; rewrite Hkw; assumption.
Qed.

Lemma chip_selected_twice_searches_its_label_witness :
  (trim (lit "DVN") <> [] /\ encodeURIComponent (lit "DVN") = Some (lit "DVN"))
  /\ requests
       (trace (handleKeywordClick Scenario.dev (Resolved Scenario.one_hit)
                 (select_keyword_chip Scenario.dev
                    (Resolved Scenario.one_hit) initial (lit "DVN"))
                 (lit "DVN")))
     = [mkRequest GET (lit "/api/search?q=DVN&type=all")].
Proof.
  split.
  - split; [vm_compute; discriminate | reflexivity].
  - refine (proj1 (chip_selected_twice_searches_its_label Scenario.dev
                     (Resolved Scenario.one_hit) (Resolved Scenario.one_hit)
                     initial (lit "DVN") (lit "DVN") _ _));
      [vm_compute; discriminate | reflexivity].
Defined.

(* ================================================================== *)
(** ** The page over time *)

Lemma handler_trace env o e st :
  trace (handler env o e st) =
  match e with
  | Typing value => [SetKeyword value]
  | InputKeyDown key =>
      if JSString.eqb key (lit "Enter")
      then trace (handleSearch env o st) else []
  | ClickSearch => trace (handleSearch env o st)
  | ClickKeywordChip label | ClickQuestionChip label =>
      SetKeyword label :: trace (handleSearch env o st)
  | KeyDownKeywordChip key label | KeyDownQuestionChip key label =>
      if activates key
      then SetKeyword label :: trace (handleSearch env o st) else []
  | ClickQuestionHeader =>
      [SetShowQuestionOptions (negb (showQuestionOptions st))]
  | ClickKeywordHeader =>
      [SetShowKeywordOptions (negb (showKeywordOptions st))]
  | ClickTab =>
      [SetHasSearched false; SetShowQuestionOptions true;
       SetShowKeywordOptions true; SetKeyword []; SetResults (JArray []);
       SetError None]
  | SelectContentType value => [SetContentType value]
  end.
Proof.
  destruct e; cbn [handler]; unfold handleKeyDown;
    try destruct (JSString.eqb key (lit "Enter"));
    try destruct (activates key);
    solve [ reflexivity
          | apply handleKeywordClick_trace
          | apply handleQuestionClick_trace ].
Qed.

(** Splits a goal about [trace (handler env o e st)] by event and by the
    way the search it may start runs. *)
Ltac event_cases env o e st :=
  rewrite (handler_trace env o e st);
  destruct e as [value|key| |label|key label|label|key label| | | |value];
  try (destruct (JSString.eqb key (lit "Enter")));
  try (destruct (activates key));
  try (search_cases env o st).

(** What a parked handler does when it resumes, on whatever state it
    finds: it writes [results], [error] and [isLoading] only, and leaves
    [isLoading] off. *)
Lemma parked_handler env o e st st' :
  let t := trace (handler env o e st) in
  let s := run st' (after_request t) in
  keyword s = keyword st'
  /\ contentType s = contentType st'
  /\ hasSearched s = hasSearched st'
  /\ showQuestionOptions s = showQuestionOptions st'
  /\ showKeywordOptions s = showKeywordOptions st'
  /\ (requests t <> [] -> isLoading s = false).
Proof.
  cbv zeta. event_cases env o e st; repeat split;
    intros H; exfalso; apply H; reflexivity.
Qed.

(** A parked handler either stores a parsed body and leaves [error] as it
    finds it, or stores a message and empties [results]. *)
Lemma parked_handler_outcome env o e st st' :
  let t := trace (handler env o e st) in
  let s := run st' (after_request t) in
  (error s = error st' \/ results s = JArray []).
Proof.
  cbv zeta. event_cases env o e st;
    solve [left; reflexivity | right; reflexivity].
Qed.

(** The part of a handler that runs within the event. *)
Lemma event_keeps_panels_closed env o e st :
  enabled e st = true ->
  (hasSearched st = true ->
   showQuestionOptions st = false /\ showKeywordOptions st = false) ->
  let s := run st (before_request (trace (handler env o e st))) in
  hasSearched s = true ->
  showQuestionOptions s = false /\ showKeywordOptions s = false.
Proof.
  intros He Hinv. cbv zeta.
  destruct (hasSearched st) eqn:Hs.
  - destruct (Hinv eq_refl) as [Hq Hw].
    assert (Hen :
      match e with
      | ClickQuestionHeader | ClickKeywordHeader => False
      | _ => True
      end).
    { destruct e; try exact I; revert He; cbn [enabled];
        unfold question_panel_rendered, keyword_panel_rendered;
        rewrite Hs, ?Hq, ?Hw; discriminate. }
    clear He.
    event_cases env o e st; try contradiction;
      cbn; rewrite ?Hs, ?Hq, ?Hw; (split; [reflexivity|reflexivity])
      || (intros; discriminate) || auto.
  - clear Hinv He.
    event_cases env o e st; cbn; rewrite ?Hs;
      try (intros; discriminate); try (split; reflexivity).
Qed.

Lemma jsstring_eqb_eq (a b : jsstring) : JSString.eqb a b = true -> a = b.
Proof.
  unfold JSString.eqb. destruct (list_eq_dec N.eq_dec a b); [auto|discriminate].
Qed.

Lemma existsb_eqb_In (v : jsstring) (l : list jsstring) :
  existsb (JSString.eqb v) l = true -> In v l.
Proof.
  intros H. apply existsb_exists in H as [x [Hx E]].
  apply jsstring_eqb_eq in E. now subst.
Qed.

Lemma event_loading env o e st :
  let t := trace (handler env o e st) in
  isLoading (run st (before_request t)) = true ->
  requests t <> [] \/ isLoading st = true.
Proof.
  cbv zeta. event_cases env o e st; cbn;
    solve [ intros; left; discriminate
          | intros; right; assumption
          | intros; discriminate ].
Qed.

Lemma event_content_type env o e st :
  enabled e st = true ->
  In (contentType st) contentTypes ->
  In (contentType (run st (before_request (trace (handler env o e st)))))
     contentTypes.
Proof.
  intros He Hin.
  assert (Hv : match e with
               | SelectContentType value => In value contentTypes
               | _ => True
               end).
  { destruct e; try exact I. now apply existsb_eqb_In. }
  clear He. event_cases env o e st; assumption.
Qed.

Lemma Forall_remove_nth {A} (P : A -> Prop) (i : nat) (l : list A) :
  Forall P l -> Forall P (remove_nth i l).
Proof.
  intros H. revert i. induction H as [|x l Hx Hl IH]; intros i.
  - destruct i; constructor.
  - destruct i; simpl; [assumption | constructor; auto].
Qed.

(** What holds between any two events, however searches overlap. *)
Lemma reachable_invariant env w :
  reachable env w ->
  (hasSearched (ui w) = true ->
   showQuestionOptions (ui w) = false /\ showKeywordOptions (ui w) = false)
  /\ (isLoading (ui w) = true -> inflight w <> [])
  /\ In (contentType (ui w)) contentTypes
  /\ Forall (fun k => forall st',
               keyword (run st' k) = keyword st'
               /\ contentType (run st' k) = contentType st'
               /\ hasSearched (run st' k) = hasSearched st'
               /\ showQuestionOptions (run st' k) = showQuestionOptions st'
               /\ showKeywordOptions (run st' k) = showKeywordOptions st'
               /\ isLoading (run st' k) = false)
            (inflight w).
Proof.
  induction 1 as [|w o e Hw [IHp [IHl [IHc IHf]]] He
                  |w i Hw [IHp [IHl [IHc IHf]]]].
  - split; [intros H; discriminate|]. split; [intros H; discriminate|].
    split; [left; reflexivity | constructor].
  - unfold fire. cbn [ui inflight].
    split; [now apply event_keeps_panels_closed|].
    split; [|split; [now apply event_content_type|]].
    + intros Hload.
      destruct (event_loading env o e (ui w) Hload) as [Hr|Hl].
      * destruct (requests (trace (handler env o e (ui w))));
          [congruence|]. intros E. now apply app_eq_nil in E as [_ E].
      * destruct (requests (trace (handler env o e (ui w))));
          [auto|]. intros E. now apply app_eq_nil in E as [_ E].
    + destruct (requests (trace (handler env o e (ui w)))) eqn:Er;
        [assumption|].
      apply Forall_app. split; [assumption|]. constructor; [|constructor].
      intros st'.
      destruct (parked_handler env o e (ui w) st')
        as [H1 [H2 [H3 [H4 [H5 H6]]]]].
      repeat split; try assumption. apply H6. rewrite Er. discriminate.
  - unfold settle.
    destruct (nth_error (inflight w) i) as [k|] eqn:Ek;
      [|split; [assumption|split; [assumption|split; assumption]]].
    cbn [ui inflight].
    assert (Hk := proj1 (Forall_forall _ _) IHf k (nth_error_In _ _ Ek) (ui w)).
    cbv beta in Hk. destruct Hk as [H1 [H2 [H3 [H4 [H5 H6]]]]].
    rewrite H2, H3, H4, H5, H6.
    split; [assumption|]. split; [intros H; discriminate|].
    split; [assumption|]. now apply Forall_remove_nth.
Qed.

Lemma handler_requests env o e st :
  requests (trace (handler env o e st)) = []
  \/ requests (trace (handler env o e st))
     = requests (trace (handleSearch env o st)).
Proof.
  rewrite (handler_trace env o e st).
  destruct e; try (left; reflexivity); try (right; reflexivity).
  - destruct (JSString.eqb key (lit "Enter")); [right|left]; reflexivity.
  - destruct (activates key); [right|left]; reflexivity.
  - destruct (activates key); [right|left]; reflexivity.
Qed.

(** What the part of a handler that runs within the event does to
    [error] and [results]. *)
Lemma event_error_and_results env o e st :
  let t := trace (handler env o e st) in
  let s := run st (before_request t) in
  (searches e = false ->
   requests t = []
   /\ ((error s = error st /\ results s = results st) \/ error s = None))
  /\ (requests t <> [] -> error s = None)
  /\ ((error s = error st /\ results s = results st)
      \/ error s = None \/ results s = JArray []).
Proof.
  cbv zeta. event_cases env o e st; cbn [searches].
  all: split;
    [ first [ discriminate
            | intros _; split;
              [ reflexivity
              | first [left; split; reflexivity | right; reflexivity] ] ] |].
  all: split;
    [ intros H; first [reflexivity | exfalso; apply H; reflexivity] |].
  all: first [ left; split; reflexivity
             | right; left; reflexivity
             | right; right; reflexivity ].
Qed.

(** What holds between any two events when no search is started while
    another has not settled. *)
Lemma in_turn_invariant env w :
  reachable_in_turn env w ->
  (List.length (inflight w) <= 1)%nat
  /\ (inflight w <> [] -> error (ui w) = None)
  /\ (error (ui w) <> None -> results (ui w) = JArray [])
  /\ Forall (fun k => forall st',
               error (run st' k) = error st'
               \/ results (run st' k) = JArray [])
            (inflight w).
Proof.
  induction 1 as [|w o e Hw [IHn [IHe [IHr IHf]]] He Hturn
                  |w i Hw [IHn [IHe [IHr IHf]]]].
  - split; [simpl; lia|]. split; [intros H; now elim H|].
    split; [intros H; now elim H | constructor].
  - unfold fire. cbn [ui inflight].
    destruct (event_error_and_results env o e (ui w)) as [Hns [Hreq Hsync]].
    destruct (searches e) eqn:Hse.
    + rewrite (Hturn eq_refl) in *. clear Hturn Hns.
      destruct (requests (trace (handler env o e (ui w)))) eqn:Er.
      * split; [simpl; lia|]. split; [intros H; now elim H|].
        split; [|constructor].
        intros Herr. destruct Hsync as [[E1 E2]|[E|E]];
          [rewrite E2; apply IHr; now rewrite <- E1 | congruence | exact E].
      * split; [simpl; lia|].
        split; [intros _; apply Hreq; discriminate|].
        split; [intros Herr; exfalso; apply Herr, Hreq; discriminate|].
        constructor; [|constructor].
        intros st'. apply parked_handler_outcome.
    + destruct (Hns eq_refl) as [Er Hkeep]. rewrite Er.
      split; [assumption|].
      split.
      * intros Hin. destruct Hkeep as [[E1 _]|E]; [|exact E].
        rewrite E1. now apply IHe.
      * split; [|assumption].
        intros Herr. destruct Hkeep as [[E1 E2]|E]; [|congruence].
        rewrite E2. apply IHr. now rewrite <- E1.
  - unfold settle.
    destruct (nth_error (inflight w) i) as [k|] eqn:Ek;
      [|split; [assumption|split; [assumption|split; assumption]]].
    cbn [ui inflight].
    assert (Hk := proj1 (Forall_forall _ _) IHf k (nth_error_In _ _ Ek) (ui w)).
    cbv beta in Hk.
    assert (Hne : inflight w <> []).
    { intros E. rewrite E in Ek. destruct i; discriminate. }
    assert (Hempty : remove_nth i (inflight w) = []).
    { destruct (inflight w) as [|k0 [|k1 tl]]; [congruence| |simpl in IHn; lia].
      destruct i as [|[|i]]; try reflexivity; discriminate. }
    rewrite Hempty.
    split; [simpl; lia|]. split; [intros H; now elim H|].
    split; [|constructor].
    intros Herr. destruct Hk as [E|E]; [|exact E].
    rewrite E, (IHe Hne) in Herr. now elim Herr.
Qed.

Lemma journey_reachable :
  reachable Scenario.dev Journey.typed
  /\ reachable Scenario.dev Journey.waiting
  /\ reachable Scenario.dev Journey.answered.
Proof.
  assert (H1 : reachable Scenario.dev Journey.typed)
    by (apply reach_fire; [apply reach_start | reflexivity]).
  assert (H2 : reachable Scenario.dev Journey.waiting)
    by (apply reach_fire; [exact H1 | reflexivity]).
  repeat split; try assumption. now apply reach_settle.
Defined.

Lemma journey_in_turn : reachable_in_turn Scenario.dev Journey.refused.
Proof.
  apply turn_settle. apply turn_fire; [|reflexivity|reflexivity].
  apply turn_fire; [apply turn_start | reflexivity | discriminate].
Defined.

(** Once a search has been started, neither suggestion panel is drawn,
    header included: until the next [resetSearch] the page offers no
    toggle and no chip. *)
Theorem panels_gone_after_search env w :
  reachable env w ->
  hasSearched (ui w) = true ->
  question_panel_rendered (ui w) = false
  /\ keyword_panel_rendered (ui w) = false
  /\ enabled ClickQuestionHeader (ui w) = false
  /\ enabled ClickKeywordHeader (ui w) = false
  /\ (forall label, enabled (ClickQuestionChip label) (ui w) = false)
  /\ (forall label, enabled (ClickKeywordChip label) (ui w) = false).
Proof.
  intros Hw Hs.
  destruct (proj1 (reachable_invariant env w Hw) Hs) as [Hq Hk].
  cbn [enabled].
  unfold question_chips_rendered, keyword_chips_rendered,
    question_panel_rendered, keyword_panel_rendered.
  rewrite Hs, Hq, Hk. repeat split.
Qed.

Lemma panels_gone_after_search_witness :
  (reachable Scenario.dev Journey.answered
   /\ hasSearched (ui Journey.answered) = true)
  /\ enabled ClickQuestionHeader (ui Journey.answered) = false.
Proof.
  split.
  - split; [apply journey_reachable | reflexivity].
  - refine (proj1 (proj2 (proj2
              (panels_gone_after_search Scenario.dev Journey.answered
                 (proj2 (proj2 journey_reachable)) eq_refl)))).
Defined.

(** Whenever the page shows the spinner, a request is in flight: once
    every request has settled the search buttons are enabled again. *)
Theorem spinner_has_request_in_flight env w :
  reachable env w ->
  (isLoading (ui w) = true -> inflight w <> [])
  /\ (inflight w = [] -> enabled ClickSearch (ui w) = true).
Proof.
  intros Hw.
  pose proof (proj1 (proj2 (reachable_invariant env w Hw))) as H.
  split; [exact H|].
  intros E. cbn [enabled]. unfold search_button_disabled.
  destruct (isLoading (ui w)); [|reflexivity].
  now elim (H eq_refl).
Qed.

Lemma spinner_has_request_in_flight_witness :
  (reachable Scenario.dev Journey.waiting
   /\ isLoading (ui Journey.waiting) = true)
  /\ inflight Journey.waiting <> [].
Proof.
  split.
  - split; [apply journey_reachable | reflexivity].
  - refine (proj1 (spinner_has_request_in_flight Scenario.dev
                     Journey.waiting (proj1 (proj2 journey_reachable)))
                  eq_refl).
Defined.

(** Every request the page ever sends is a GET on the search endpoint
    whose [type] is one of the five values of the select. *)
Theorem requests_carry_a_select_value env w o e r :
  reachable env w ->
  enabled e (ui w) = true ->
  In r (requests (trace (handler env o e (ui w)))) ->
  exists q ty,
    In ty contentTypes
    /\ encodeURIComponent (keyword (ui w)) = Some q
    /\ r = mkRequest GET
             (baseUrl env ++ lit "/api/search?q=" ++ q ++ lit "&type=" ++ ty).
Proof.
  intros Hw _ Hin.
  pose proof (proj1 (proj2 (proj2 (reachable_invariant env w Hw)))) as Hty.
  destruct (handler_requests env o e (ui w)) as [E|E];
    rewrite E in Hin; [destruct Hin|].
  destruct (JSString.truthy (trim (keyword (ui w)))) eqn:Hk.
  - destruct (encodeURIComponent (keyword (ui w))) as [q|] eqn:Hq.
    + rewrite (handleSearch_requests env o (ui w) q Hk Hq) in Hin.
      destruct Hin as [<-|[]].
      exists q, (contentType (ui w)). repeat split. exact Hty.
    + rewrite (handleSearch_trace_uri_error env o (ui w) Hk Hq) in Hin.
      destruct Hin.
  - rewrite (handleSearch_blank env o (ui w) Hk) in Hin. destruct Hin.
Qed.

Lemma requests_carry_a_select_value_witness :
  (reachable Scenario.dev Journey.typed
   /\ enabled ClickSearch (ui Journey.typed) = true
   /\ In (mkRequest GET (lit "/api/search?q=DVN&type=all"))
        (requests
           (trace (handler Scenario.dev (Resolved Scenario.one_hit)
                     ClickSearch (ui Journey.typed)))))
  /\ exists q ty,
       In ty contentTypes
       /\ encodeURIComponent (keyword (ui Journey.typed)) = Some q
       /\ mkRequest GET (lit "/api/search?q=DVN&type=all")
          = mkRequest GET
              (baseUrl Scenario.dev ++ lit "/api/search?q=" ++ q
                 ++ lit "&type=" ++ ty).
Proof.
  assert (Hin : In (mkRequest GET (lit "/api/search?q=DVN&type=all"))
                  (requests
                     (trace (handler Scenario.dev
                               (Resolved Scenario.one_hit)
                               ClickSearch (ui Journey.typed)))))
    by (left; reflexivity).
  split.
  - split; [apply journey_reachable | split; [reflexivity | exact Hin]].
  - exact (requests_carry_a_select_value Scenario.dev Journey.typed
             (Resolved Scenario.one_hit) ClickSearch _
             (proj1 journey_reachable) eq_refl Hin).
Defined.

(** When no search is started before the previous one has settled, an
    error on the page always comes with empty results, and at most one
    request is in flight. *)
Theorem error_comes_with_empty_results env w :
  reachable_in_turn env w ->
  (error (ui w) <> None -> results (ui w) = JArray [])
  /\ (List.length (inflight w) <= 1)%nat.
Proof.
  intros Hw. destruct (in_turn_invariant env w Hw) as [Hn [_ [Hr _]]].
  split; assumption.
Qed.

Lemma error_comes_with_empty_results_witness :
  (reachable_in_turn Scenario.dev Journey.refused
   /\ error (ui Journey.refused) <> None)
  /\ results (ui Journey.refused) = JArray [].
Proof.
  assert (Hne : error (ui Journey.refused) <> None)
    by (vm_compute; discriminate).
  split.
  - split; [exact journey_in_turn | exact Hne].
  - exact (proj1 (error_comes_with_empty_results Scenario.dev
                    Journey.refused journey_in_turn) Hne).
Defined.

Lemma enter_trace env o st :
  trace (handler env o Journey.enter st) = trace (handleSearch env o st).
Proof. reflexivity. Qed.

(** Two searches in flight at once.  If the first is refused and the
    second answered, then when they settle in that order the page ends up
    with the first search's error next to the second search's results;
    when they settle in the other order the failure of the first wipes the
    results of the second.  Either way the error of the first search
    stays. *)
Theorem overlapping_searches_mix_their_outcomes env st rA rB data :
  trim (keyword st) <> [] ->
  isWellFormed (keyword st) = true ->
  ok rA = false ->
  ok rB = true ->
  json rB = Some data ->
  let w :=
    fire env (Resolved rB) Journey.enter
      (fire env (Resolved rA) Journey.enter (mkWorld st [])) in
  let in_order := settle 0 (settle 0 w) in
  let reversed := settle 0 (settle 1 w) in
  List.length (inflight w) = 2%nat
  /\ inflight in_order = [] /\ inflight reversed = []
  /\ error (ui in_order) = Some (unavailable_message rA)
  /\ results (ui in_order) = data
  /\ error (ui reversed) = Some (unavailable_message rA)
  /\ results (ui reversed) = JArray [].
Proof.
  intros Hk Hwf HokA HokB Hj w in_order reversed.
  apply truthy_nonempty in Hk.
  destruct (encodeURIComponent_defined _ Hwf) as [q Hq].
  set (begin := [SetIsLoading true; SetError None; SetHasSearched true;
                 SetShowQuestionOptions false; SetShowKeywordOptions false]).
  assert (Ew : w = mkWorld (run (run st begin) begin)
                     [[ConsoleError (lit "Search error:");
                       SetError (Some (unavailable_message rA));
                       SetResults (JArray []); SetIsLoading false];
                      [SetResults data; SetIsLoading false]]).
  { unfold w, fire. cbn [ui inflight].
    rewrite (enter_trace env (Resolved rA) st).
    rewrite (handleSearch_trace env (Resolved rA) st q Hk Hq), HokA.
    cbn [app before_request requests after_request].
    fold begin.
    rewrite (enter_trace env (Resolved rB) (run st begin)).
    rewrite (handleSearch_trace env (Resolved rB) (run st begin) q Hk Hq),
      HokB, Hj.
    reflexivity. }
  subst in_order reversed. rewrite Ew. repeat split.
Qed.

Lemma overlapping_searches_mix_their_outcomes_witness :
  (trim (keyword (Scenario.typed "DVN")) <> []
   /\ isWellFormed (keyword (Scenario.typed "DVN")) = true
   /\ ok Scenario.db_down = false
   /\ ok Scenario.one_hit = true
   /\ json Scenario.one_hit
      = Some (JArray [JObject [(lit "id",
                JNumber (S754_finite false 4503599627370496 (-52)))]]))
  /\ error
       (ui (settle 0 (settle 0
          (fire Scenario.dev (Resolved Scenario.one_hit) Journey.enter
             (fire Scenario.dev (Resolved Scenario.db_down) Journey.enter
                (mkWorld (Scenario.typed "DVN") []))))))
     = Some (unavailable_message Scenario.db_down).
Proof.
  split.
  - repeat split. vm_compute. discriminate.
  - refine (proj1 (proj2 (proj2 (proj2
              (overlapping_searches_mix_their_outcomes Scenario.dev
                 (Scenario.typed "DVN") Scenario.db_down Scenario.one_hit _
                 _ _ _ _ _)))));
      [vm_compute; discriminate | reflexivity | reflexivity | reflexivity
      | reflexivity].
Defined.

(* ================================================================== *)
(** ** The scroll animation *)

Section ScrollFacts.

Local Open Scope Q_scope.

Lemma easeInOutQuad_compat (a b : Q) :
  a == b -> easeInOutQuad a == easeInOutQuad b.
Proof.
  intros E.
  destruct (Qlt_le_dec a (1 # 2)) as [Ha|Ha].
  - assert (Hb : b < 1 # 2) by lra.
    rewrite (easeInOutQuad_first_half a Ha), (easeInOutQuad_first_half b Hb).
    now rewrite E.
  - assert (Hb : 1 # 2 <= b) by lra.
    rewrite (easeInOutQuad_second_half a Ha), (easeInOutQuad_second_half b Hb).
    now rewrite E.
Qed.

Lemma easeInOutQuad_at_0 : easeInOutQuad 0 == 0.
Proof. reflexivity. Qed.

Lemma easeInOutQuad_at_1 : easeInOutQuad 1 == 1.
Proof. reflexivity. Qed.




Lemma progress_done (elapsed : Q) :
  duration <= elapsed -> Qmin (elapsed / duration) 1 == 1.
Proof.
  intros H. apply Q.min_r.
  apply Qle_shift_div_l; [reflexivity | lra].
Qed.


(** A frame at or past the end of the duration scrolls to the target
    itself, not to a rounding of it, and asks for no further frame. *)
Theorem step_lands_on_target sp d start timestamp :
  duration <= timestamp - started (step sp d start timestamp) ->
  top (step sp d start timestamp) == sp + d
  /\ again (step sp d start timestamp) = false.
Proof.
  unfold step. cbn [started top again]. intros H. split.
  - rewrite (easeInOutQuad_compat _ 1 (progress_done _ H)).
    rewrite easeInOutQuad_at_1. ring.
  - destruct (Qlt_le_dec _ duration) as [Hlt|_]; [lra | reflexivity].
Qed.

Lemma step_lands_on_target_witness :
  duration <= 1516 - started (step 100 300 (Some 1000) 1516)
  /\ top (step 100 300 (Some 1000) 1516) == 100 + 300.
Proof.
  split.
  - vm_compute. discriminate.
  - apply (step_lands_on_target 100 300 (Some 1000) 1516).
    vm_compute. discriminate.
Defined.

(** [if (!start)] also fires on a start of 0: a clock that began at
    timestamp 0 begins again on the next frame, which scrolls back to the
    starting position. *)
Theorem step_restarts_from_zero sp d s timestamp :
  s == 0 ->
  started (step sp d (Some s) timestamp) = timestamp
  /\ top (step sp d (Some s) timestamp) == sp
  /\ again (step sp d (Some s) timestamp) = true.
Proof.
  intros E. unfold step, not_started.
  apply Qeq_bool_iff in E. rewrite E. cbn [started top again].
  repeat split.
  - assert (Ep : Qmin ((timestamp - timestamp) / duration) 1 == 0).
    { rewrite Q.min_l.
      - unfold Qdiv. ring.
      - apply Qle_shift_div_r; [reflexivity | unfold duration; lra]. }
    rewrite (easeInOutQuad_compat _ 0 Ep), easeInOutQuad_at_0. ring.
  - destruct (Qlt_le_dec _ duration) as [_|Hle]; [reflexivity|].
    exfalso. unfold duration in Hle. lra.
Qed.

Lemma step_restarts_from_zero_witness :
  0 == 0 /\ started (step 100 300 (Some 0) 16) = 16.
Proof.
  split.
  - reflexivity.
  - apply (step_restarts_from_zero 100 300 0 16). reflexivity.
Defined.

End ScrollFacts.

Section AnimationFacts.

Local Open Scope Q_scope.






End AnimationFacts.

(* ================================================================== *)
(** ** Resets, toggles and the scroll effect *)

(** Switching tabs while a search is in flight does not cancel it: the
    page is cleared at once, but when the response arrives it is stored
    on the cleared page, where the results block is not drawn and the
    scroll effect does not run. *)
Theorem reset_does_not_cancel_pending_search env st r data :
  trim (keyword st) <> [] ->
  isWellFormed (keyword st) = true ->
  ok r = true ->
  json r = Some data ->
  let cleared :=
    fire env (Resolved r) ClickTab
      (fire env (Resolved r) Journey.enter (mkWorld st [])) in
  List.length (inflight cleared) = 1%nat
  /\ isLoading (ui cleared) = true
  /\ ui (settle 0 cleared) =
     {| keyword := lit "";
        contentType := contentType st;
        isLoading := false;
        hasSearched := false;
        results := data;
        error := None;
        showQuestionOptions := true;
        showKeywordOptions := true |}
  /\ results_rendered (ui (settle 0 cleared)) = false
  /\ scroll_effect_runs (ui (settle 0 cleared)) = false.
Proof.
  intros Hk Hwf Hok Hj cleared. apply truthy_nonempty in Hk.
  destruct (encodeURIComponent_defined _ Hwf) as [q Hq].
  assert (E : cleared =
              mkWorld
                (run st [SetIsLoading true; SetError None;
                         SetHasSearched true; SetShowQuestionOptions false;
                         SetShowKeywordOptions false; SetHasSearched false;
                         SetShowQuestionOptions true;
                         SetShowKeywordOptions true; SetKeyword [];
                         SetResults (JArray []); SetError None])
                [[SetResults data; SetIsLoading false]]).
  { unfold cleared, fire. cbn [ui inflight].
    rewrite (enter_trace env (Resolved r) st).
    rewrite (handleSearch_trace env (Resolved r) st q Hk Hq), Hok, Hj.
    reflexivity. }
  rewrite E. repeat split.
Qed.

Lemma reset_does_not_cancel_pending_search_witness :
  (trim (keyword (Scenario.typed "DVN")) <> []
   /\ isWellFormed (keyword (Scenario.typed "DVN")) = true
   /\ ok Scenario.one_hit = true
   /\ json Scenario.one_hit
      = Some (JArray [JObject [(lit "id",
                JNumber (S754_finite false 4503599627370496 (-52)))]]))
  /\ results_rendered
       (ui (settle 0
          (fire Scenario.dev (Resolved Scenario.one_hit) ClickTab
             (fire Scenario.dev (Resolved Scenario.one_hit) Journey.enter
                (mkWorld (Scenario.typed "DVN") []))))) = false.
Proof.
  split.
  - repeat split. vm_compute. discriminate.
  - refine (proj1 (proj2 (proj2 (proj2
              (reset_does_not_cancel_pending_search Scenario.dev
                 (Scenario.typed "DVN") Scenario.one_hit _ _ _ _ _)))));
      [vm_compute; discriminate | reflexivity | reflexivity | reflexivity].
Defined.

(** The scroll effect's guard holds after every search that passed the
    guard of [handleSearch], failed ones included, and a search that was
    skipped leaves it as it was. *)
Theorem scroll_effect_follows_every_search env o st :
  (trim (keyword st) <> [] ->
   scroll_effect_runs (dispatch st (handleSearch env o)) = true)
  /\ (trim (keyword st) = [] ->
      scroll_effect_runs (dispatch st (handleSearch env o))
      = scroll_effect_runs st).
Proof.
  unfold dispatch. split.
  - intros Hk. apply truthy_nonempty in Hk.
    search_cases env o st; try congruence; reflexivity.
  - intros Hk. rewrite handleSearch_blank; [reflexivity | now rewrite Hk].
Qed.

Lemma scroll_effect_follows_every_search_witness :
  trim (keyword (Scenario.typed "DVN")) <> []
  /\ scroll_effect_runs
       (dispatch (Scenario.typed "DVN")
          (handleSearch Scenario.dev (Rejected NonError))) = true.
Proof.
  split.
  - vm_compute. discriminate.
  - refine (proj1 (scroll_effect_follows_every_search Scenario.dev
                     (Rejected NonError) (Scenario.typed "DVN")) _).
    vm_compute. discriminate.
Defined.

(** Before a search both headers are drawn whatever the toggles say, and
    a click on a header flips the chips under it and nothing else on the
    page; two clicks in successive renders undo each other. *)
Theorem header_click_flips_its_chips env o st :
  hasSearched st = false ->
  let q := dispatch st (handler env o ClickQuestionHeader) in
  let k := dispatch st (handler env o ClickKeywordHeader) in
  enabled ClickQuestionHeader st = true
  /\ enabled ClickKeywordHeader st = true
  /\ question_chips_rendered q = negb (question_chips_rendered st)
  /\ keyword_chips_rendered q = keyword_chips_rendered st
  /\ keyword_chips_rendered k = negb (keyword_chips_rendered st)
  /\ question_chips_rendered k = question_chips_rendered st
  /\ dispatch q (handler env o ClickQuestionHeader) = st
  /\ dispatch k (handler env o ClickKeywordHeader) = st.
Proof.
  intros Hs. destruct st as [kw ct ld hs rs er sq sk].
  cbn in Hs. subst hs.
  destruct sq, sk; repeat split.
Qed.

Lemma header_click_flips_its_chips_witness :
  hasSearched initial = false
  /\ question_chips_rendered
       (dispatch initial
          (handler Scenario.dev (Resolved Scenario.one_hit)
             ClickQuestionHeader)) = false.
Proof.
  split.
  - reflexivity.
  - refine (proj1 (proj2 (proj2
              (header_click_flips_its_chips Scenario.dev
                 (Resolved Scenario.one_hit) initial _)))).
    reflexivity.
Defined.
